(** * pebble: util.py

    A shallow embedding of the instrumentation helpers of [util.py]
    (Timer, LogStep/Logger, Config and its process-wide singleton, Dataset,
    the host probes and the metadata builders) together with the properties
    its specification states about them.

    Conventions.
    - Python exceptions are values of [exn]; a call yields a [result].
    - Methods that mutate an object are state transformers that hand back
      the state reached even when they raise, as Python does.
    - [time.time()] returns a float; timestamps are idealised as rationals
      (float subtraction is monotone, so the sign of a difference agrees). *)

From Stdlib Require Import ZArith QArith Lqa String Ascii List Lia.
From Stdlib Require Import DecimalString DecimalZ.
From stdpp Require Import gmap strings list fin_maps.
Import ListNotations.

Local Open Scope string_scope.
Local Open Scope list_scope.

(** ** Python values, exceptions and results *)

Module Py.

Inductive exn : Type :=
| RuntimeError (msg : string)
| AttributeError (attr : string)
| CalledProcessError (returncode : Z) (cmd : string)
| FileNotFoundError (file : string)
| DeviceError (msg : string).

Inductive result (A : Type) : Type :=
| Ok (a : A)
| Raise (e : exn).
Arguments Ok {A} a.
Arguments Raise {A} e.

(** The values that end up in [__dict__]s and in metadata records. *)
#[warnings="-register-all"]
Inductive value : Type :=
| VNone
| VBool (b : bool)
| VInt (n : Z)
| VFloat (q : Q)
| VStr (s : string)
| VList (l : list value).

#[export] Instance result_ret : MRet result := @Ok.
#[export] Instance result_bind : MBind result :=
  fun A B k r => match r with Ok a => k a | Raise e => Raise e end.

(** Methods that mutate their object: transformers of a state [S] that
    may raise; the state reached is kept when they do. *)
Definition stateE (S A : Type) : Type := S -> result A * S.

#[export] Instance stateE_ret S : MRet (stateE S) :=
  fun A a s => (Ok a, s).
#[export] Instance stateE_bind S : MBind (stateE S) :=
  fun A B k m s => match m s with
                   | (Ok a, s') => k a s'
                   | (Raise e, s') => (Raise e, s')
                   end.

Definition raise {S A} (e : exn) : stateE S A := fun s => (Raise e, s).
Definition lift {S A} (r : result A) : stateE S A := fun s => (r, s).
Definition get {S} : stateE S S := fun s => (Ok s, s).
Definition modify {S} (f : S -> S) : stateE S unit := fun s => (Ok tt, f s).

End Py.
Import Py.

(** ** Timer *)

Module Timer.

Record Timer : Type := mkTimer {
  start_time : option Q;
  last_record : option Q;
  end_time : option Q }.

(** [Timer.__init__] *)
Definition init : Timer :=
  {| start_time := None; last_record := None; end_time := None |}.

Definition msg_already_running : string :=
  "Timer is already running. Use stop() to stop it before starting again.".
Definition msg_not_running : string :=
  "Timer is not running. Use start() to start it.".

(** A timer together with the number of clock readings made so far. *)
Record St : Type := mkSt { tm : Timer; reads : nat }.

Abbreviation M := (stateE St).

Section WithClock.

(** [clock k] is what the [k]-th call of [time.time()] returns. *)
Variable clock : nat -> Q.

Definition time_time : M Q :=
  fun s => (Ok (clock (reads s)), {| tm := tm s; reads := S (reads s) |}).

Definition self : M Timer := fun s => (Ok (tm s), s).

Definition set_start_time (v : option Q) : M unit :=
  fun s => (Ok tt, {| tm := {| start_time := v;
                               last_record := last_record (tm s);
                               end_time := end_time (tm s) |};
                      reads := reads s |}).
Definition set_last_record (v : option Q) : M unit :=
  fun s => (Ok tt, {| tm := {| start_time := start_time (tm s);
                               last_record := v;
                               end_time := end_time (tm s) |};
                      reads := reads s |}).
Definition set_end_time (v : option Q) : M unit :=
  fun s => (Ok tt, {| tm := {| start_time := start_time (tm s);
                               last_record := last_record (tm s);
                               end_time := v |};
                      reads := reads s |}).

(** [Timer.start] *)
Definition start : M unit :=
  t ← self;
  match start_time t with
  | Some _ => raise (RuntimeError msg_already_running)
  | None =>
      now ← time_time;
      set_start_time (Some now);;
      now' ← time_time;
      set_last_record (Some now')
  end.

(** [Timer.stop] *)
Definition stop : M Q :=
  t ← self;
  match start_time t with
  | None => raise (RuntimeError msg_not_running)
  | Some started =>
      now ← time_time;
      set_end_time (Some now);;
      let elapsed_time := (now - started)%Q in
      set_start_time None;;
      set_end_time None;;
      set_last_record None;;
      mret elapsed_time
  end.

(** [Timer.record] *)
Definition record : M Q :=
  t ← self;
  match last_record t with
  | None => raise (RuntimeError msg_not_running)
  | Some last =>
      current ← time_time;
      let elapsed_time := (current - last)%Q in
      now ← time_time;
      set_last_record (Some now);;
      mret elapsed_time
  end.

(** [n] consecutive [record()] calls, collecting what they return. *)
Fixpoint record_n (n : nat) : M (list Q) :=
  match n with
  | O => mret []
  | S n' => d ← record; ds ← record_n n'; mret (d :: ds)
  end.

(** The two states of the protocol, read off [start_time] as the
    guards of [start] and [stop] do. *)
Definition Running (s : St) : Prop := start_time (tm s) <> None.
Definition Idle (s : St) : Prop := start_time (tm s) = None.

(** Time passing between two calls: other code reads the clock. *)
Definition wait (k : nat) (s : St) : St :=
  {| tm := tm s; reads := k + reads s |}.

Inductive call : Type := CStart | CStop | CRecord.

Definition run_call (c : call) (s : St) : St :=
  match c with
  | CStart => snd (start s)
  | CStop => snd (stop s)
  | CRecord => snd (record s)
  end.

(** States a timer can be in: built by [init], then driven through
    its three methods, with any amount of time in between. *)
Inductive reachable : St -> Prop :=
| reach_init n : reachable {| tm := init; reads := n |}
| reach_wait k s : reachable s -> reachable (wait k s)
| reach_call c s : reachable s -> reachable (run_call c s).

(** What happens between a [start()] and the matching [stop()]:
    [record()] calls and waiting. *)
Inductive during_run : St -> St -> Prop :=
| run_here s : during_run s s
| run_wait k s s' : during_run s s' -> during_run s (wait k s')
| run_record s s' : during_run s s' -> during_run s (snd (record s')).

Definition monotone : Prop :=
  forall i j, (i <= j)%nat -> (clock i <= clock j)%Q.

(** A stored timestamp is one of the readings already made. *)
Definition past (s : St) (o : option Q) : Prop :=
  forall x, o = Some x -> exists i, (i < reads s)%nat /\ x = clock i.

Definition inv (s : St) : Prop :=
  end_time (tm s) = None /\
  (start_time (tm s) = None <-> last_record (tm s) = None) /\
  past s (start_time (tm s)) /\
  past s (last_record (tm s)).

(** What [n] consecutive [record()] calls are to return, in the
    words of the specification: each the time since the previous
    record-or-start call. [last] is the timestamp that call left and
    [i] the index of the next reading. *)
Fixpoint expected_deltas (last : Q) (i n : nat) : list Q :=
  match n with
  | O => []
  | S n' =>
      (clock i - last)%Q :: expected_deltas (clock (S i)) (S (S i)) n'
  end.

End WithClock.

(** A sample clock: one second between consecutive readings. *)
Definition seconds (k : nat) : Q := inject_Z (Z.of_nat k).

Definition fresh_timer : St := {| tm := init; reads := 0 |}.

End Timer.

(** ** LogStep and Logger *)

Module Logger.

(** The fields of the [LogStep] dataclass, in declaration order. *)
Record LogStep : Type := mkLogStep {
  epoch : Z;
  eval_acc : Q;
  sample_time : Q;
  load_time : Q;
  forward_time : Q;
  backward_time : Q;
  cur_epoch_time : Q;
  acc_epoch_time : Q;
  evaluate_time : Q;
  loss : Q }.

(** Objects live in a store; an object is its [__dict__]. *)
Abbreviation loc := positive.
Abbreviation attrs := (gmap string value).

(** The store, and the [steps] list of the one [Logger] under study
    (a list of references: [append] stores the step it is given, not a
    copy). *)
Record World : Type := mkWorld {
  objs : gmap loc attrs;
  steps : list loc }.

(** The [__dict__] a [LogStep] instance has after the generated
    [__init__] ran. *)
Definition fields (s : LogStep) : attrs :=
  <["loss" := VFloat (loss s)]>
  (<["evaluate_time" := VFloat (evaluate_time s)]>
  (<["acc_epoch_time" := VFloat (acc_epoch_time s)]>
  (<["cur_epoch_time" := VFloat (cur_epoch_time s)]>
  (<["backward_time" := VFloat (backward_time s)]>
  (<["forward_time" := VFloat (forward_time s)]>
  (<["load_time" := VFloat (load_time s)]>
  (<["sample_time" := VFloat (sample_time s)]>
  (<["eval_acc" := VFloat (eval_acc s)]>
  (<["epoch" := VInt (epoch s)]> ∅))))))))).

(** [LogStep(...)]: allocate a new instance. *)
Definition new_LogStep (s : LogStep) (w : World) : loc * World :=
  let l := fresh (dom (objs w)) in
  (l, {| objs := <[l := fields s]> (objs w); steps := steps w |}).

(** [LogStep.dict]: [return self.__dict__], the instance's own
    dictionary and not a copy of it. *)
Definition dict (self : loc) : loc := self.

(** [Logger.__init__]: [self.steps = []] *)
Definition init (w : World) : World :=
  {| objs := objs w; steps := [] |}.

(** [Logger.append] *)
Definition append (step : loc) (w : World) : World :=
  {| objs := objs w; steps := steps w ++ [step] |}.

(** [Logger.list]: the loop appends [step.dict()] to [ret] for each
    step, in the order of [self.steps]. *)
Definition list_ (w : World) : list loc * World :=
  (foldl (fun ret step => ret ++ [dict step]) [] (steps w), w).

(** What a caller sees when it reads the mappings it was handed. *)
Definition read (w : World) (ls : list loc) : list (option attrs) :=
  map (fun l => objs w !! l) ls.

(** A mapping carries the ten fields of a step, each under its name. *)
Definition records (d : attrs) (s : LogStep) : Prop :=
  d !! "epoch" = Some (VInt (epoch s)) /\
  d !! "eval_acc" = Some (VFloat (eval_acc s)) /\
  d !! "sample_time" = Some (VFloat (sample_time s)) /\
  d !! "load_time" = Some (VFloat (load_time s)) /\
  d !! "forward_time" = Some (VFloat (forward_time s)) /\
  d !! "backward_time" = Some (VFloat (backward_time s)) /\
  d !! "cur_epoch_time" = Some (VFloat (cur_epoch_time s)) /\
  d !! "acc_epoch_time" = Some (VFloat (acc_epoch_time s)) /\
  d !! "evaluate_time" = Some (VFloat (evaluate_time s)) /\
  d !! "loss" = Some (VFloat (loss s)).

(** The caller's side: build each step and append it. *)
Definition log_all (ss : list LogStep) (w : World) : World :=
  foldl (fun w s => let (l, w') := new_LogStep s w in append l w') w ss.

End Logger.

(** ** Config and the process-wide current configuration *)

Module Config.

Abbreviation obj := (gmap string value).

(** Attribute access on an [argparse.Namespace] or on a [Config]
    instance: the instance dictionary decides (the annotated fields of
    the dataclass have no defaults, hence no class attribute to fall
    back on). *)
Definition getattr (o : obj) (name : string) : result value :=
  match o !! name with
  | Some v => Ok v
  | None => Raise (AttributeError name)
  end.

Definition setattr (o : obj) (name : string) (v : value) : obj :=
  <[name := v]> o.

(** The annotated fields of the dataclass, in declaration order. *)
Definition declared_fields : list string :=
  ["sample_mode"; "batch_size"; "fanouts"; "num_epoch"; "hid_size";
   "num_head"; "lr"; "weight_decay"; "dropout"; "world_size";
   "num_partition"; "graph_name"; "data_dir"; "model"; "log_file";
   "eval"].

(** The attributes [__init__] assigns, in the order it assigns them. *)
Definition assigned_fields : list string :=
  ["sample_mode"; "batch_size"; "fanouts"; "num_epoch"; "hid_size";
   "num_layers"; "num_head"; "lr"; "weight_decay"; "dropout";
   "num_partition"; "graph_name"; "data_dir"; "model"; "log_file";
   "eval"].

(** [Config.__init__]; the commented-out assignment of [world_size] is
    absent here as it is there, and [num_layers] is assigned although
    it is not declared. *)
Definition init (args : obj) : result obj :=
  let self : obj := ∅ in
  v ← getattr args "sample_mode"; let self := setattr self "sample_mode" v in
  v ← getattr args "batch_size"; let self := setattr self "batch_size" v in
  v ← getattr args "fanouts"; let self := setattr self "fanouts" v in
  v ← getattr args "num_epoch"; let self := setattr self "num_epoch" v in
  v ← getattr args "hid_size"; let self := setattr self "hid_size" v in
  v ← getattr args "num_layers"; let self := setattr self "num_layers" v in
  v ← getattr args "num_head"; let self := setattr self "num_head" v in
  v ← getattr args "lr"; let self := setattr self "lr" v in
  v ← getattr args "weight_decay"; let self := setattr self "weight_decay" v in
  v ← getattr args "dropout"; let self := setattr self "dropout" v in
  v ← getattr args "num_partition"; let self := setattr self "num_partition" v in
  v ← getattr args "graph_name"; let self := setattr self "graph_name" v in
  v ← getattr args "data_dir"; let self := setattr self "data_dir" v in
  v ← getattr args "model"; let self := setattr self "model" v in
  v ← getattr args "log_file"; let self := setattr self "log_file" v in
  v ← getattr args "eval"; let self := setattr self "eval" v in
  mret self.

(** The module-level variable [gconfig]; [None] is Python's [None]. *)
Record Globals : Type := mkGlobals { gconfig : option obj }.

(** [gconfig = None] at import time. *)
Definition module_init : Globals := {| gconfig := None |}.

(** [Config.get_global_config] *)
Definition get_global_config (g : Globals) : option obj * Globals :=
  (gconfig g, g).

(** [Config.set_global_config]; the argument is whatever reference
    the caller passes. *)
Definition set_global_config (config : option obj) (g : Globals) : Globals :=
  {| gconfig := config |}.

Definition set_all (cs : list (option obj)) (g : Globals) : Globals :=
  foldl (fun g c => set_global_config c g) g cs.

End Config.

(** ** Dataset *)

Module Dataset.

(** What the tensor and graph libraries provide. [tensor_to t d] is
    [t.to(d)]: a tensor on device [d], or the library's error. *)
Class Backend : Type := {
  Tensor : Type;
  Device : Type;
  Graph : Type;
  tensor_to : Tensor -> Device -> result Tensor;
  num_nodes : Graph -> Z;
  num_edges : Graph -> Z }.

Section WithBackend.
Context `{Backend}.

(** [feat] is [None] when the dataset is loaded with [topo_only]. *)
Record Dataset : Type := mkDataset {
  graph : Graph;
  feat : option Tensor;
  label : Tensor;
  train_mask : Tensor;
  val_mask : Tensor;
  test_mask : Tensor;
  num_classes : Z;
  in_feats : Z }.

Definition set_label (t : Tensor) (d : Dataset) : Dataset :=
  {| graph := graph d; feat := feat d; label := t;
     train_mask := train_mask d; val_mask := val_mask d;
     test_mask := test_mask d; num_classes := num_classes d;
     in_feats := in_feats d |}.
Definition set_train_mask (t : Tensor) (d : Dataset) : Dataset :=
  {| graph := graph d; feat := feat d; label := label d;
     train_mask := t; val_mask := val_mask d;
     test_mask := test_mask d; num_classes := num_classes d;
     in_feats := in_feats d |}.
Definition set_val_mask (t : Tensor) (d : Dataset) : Dataset :=
  {| graph := graph d; feat := feat d; label := label d;
     train_mask := train_mask d; val_mask := t;
     test_mask := test_mask d; num_classes := num_classes d;
     in_feats := in_feats d |}.
Definition set_test_mask (t : Tensor) (d : Dataset) : Dataset :=
  {| graph := graph d; feat := feat d; label := label d;
     train_mask := train_mask d; val_mask := val_mask d;
     test_mask := t; num_classes := num_classes d;
     in_feats := in_feats d |}.

(** [Dataset.to]: four assignments, each of which may raise and
    leave the earlier ones done. *)
Definition to (device : Device) : stateE Dataset unit :=
  self ← get; t ← lift (tensor_to (label self) device);
  modify (set_label t);;
  self ← get; t ← lift (tensor_to (train_mask self) device);
  modify (set_train_mask t);;
  self ← get; t ← lift (tensor_to (val_mask self) device);
  modify (set_val_mask t);;
  self ← get; t ← lift (tensor_to (test_mask self) device);
  modify (set_test_mask t).

End WithBackend.

End Dataset.

(** ** The string methods the probes use *)

Module PyStr.

Definition newline : ascii := ascii_of_nat 10.

(** [str.isspace] on one character (code points below 256). *)
Definition isspace (c : ascii) : bool :=
  let n := nat_of_ascii c in
  ((9 <=? n) && (n <=? 13) || (28 <=? n) && (n <=? 32)
   || (n =? 133) || (n =? 160))%nat.

(** The whitespace of [bytes.strip]: space, tab, newline, return,
    vertical tab and form feed. *)
Definition isspace_bytes (c : ascii) : bool :=
  let n := nat_of_ascii c in
  ((9 <=? n) && (n <=? 13) || (n =? 32))%nat.

Fixpoint lstrip_with (ws : ascii -> bool) (s : string) : string :=
  match s with
  | EmptyString => EmptyString
  | String c s' => if ws c then lstrip_with ws s' else s
  end.

Definition rstrip_with (ws : ascii -> bool) (s : string) : string :=
  String.rev (lstrip_with ws (String.rev s)).

(** [s.strip()] on a [str] *)
Definition strip (s : string) : string :=
  rstrip_with isspace (lstrip_with isspace s).

(** [b.strip()] on a [bytes] *)
Definition bytes_strip (s : string) : string :=
  rstrip_with isspace_bytes (lstrip_with isspace_bytes s).

(** [s.split(sep)] for a one-character separator: never empty. *)
Fixpoint split (sep : ascii) (s : string) : list string :=
  match s with
  | EmptyString => [EmptyString]
  | String c s' =>
      if Ascii.eqb c sep then EmptyString :: split sep s'
      else match split sep s' with
           | w :: ws => String c w :: ws
           | [] => [String c EmptyString]
           end
  end.

(** [s.find(sub)]: the lowest index, or -1. *)
Definition find (sub s : string) : Z :=
  match String.index 0 sub s with
  | Some i => Z.of_nat i
  | None => (-1)%Z
  end.

Fixpoint drop (n : nat) (s : string) : string :=
  match n, s with
  | O, _ => s
  | S n', String _ s' => drop n' s'
  | S _, EmptyString => EmptyString
  end.

(** [s[k:]]; a negative [k] counts from the end. *)
Definition slice_from (k : Z) (s : string) : string :=
  if (k <? 0)%Z
  then drop (Z.to_nat (Z.of_nat (String.length s) + k)) s
  else drop (Z.to_nat k) s.

End PyStr.

(** ** Host probes *)

Module Host.

(** How launching a child process ends: the executable is not found,
    or the child exits with a status and what it wrote. *)
Inductive run_outcome : Type :=
| NotFound
| Exited (returncode : Z) (stdout stderr : string).

(** The host: what happens when [/bin/sh -c lscpu] is run (a shell that
    cannot find [lscpu] exits with 127), and when [nvidia-smi] is.
    Output is taken to be ASCII text, on which decoding is the
    identity. *)
Record Host : Type := mkHost {
  sh_lscpu : run_outcome;
  nvidia_smi : run_outcome }.

Record CompletedProcess : Type := mkCompleted {
  returncode : Z;
  stdout : string;
  stderr : string }.

(** Calls that may raise and that print: the lines printed are kept
    whatever the outcome. *)
Record IO (A : Type) : Type := mkIO {
  res : result A;
  out : list string }.
Arguments mkIO {A} res out.
Arguments res {A} i.
Arguments out {A} i.

#[export] Instance IO_ret : MRet IO := fun A a => mkIO (Ok a) [].
#[export] Instance IO_bind : MBind IO :=
  fun A B k m =>
    match res m with
    | Ok a => mkIO (res (k a)) (out m ++ out (k a))
    | Raise e => mkIO (Raise e) (out m)
    end.

Definition print (line : string) : IO unit := mkIO (Ok tt) [line].
Definition io {A} (r : result A) : IO A := mkIO r [].

(** [try: body except ...: handler]; [handler e] is [None] for an
    exception no clause matches, which then propagates. *)
Definition try_except {A} (body : IO A) (handler : exn -> option (IO A)) : IO A :=
  match res body with
  | Ok _ => body
  | Raise e =>
      match handler e with
      | Some h => mkIO (res h) (out body ++ out h)
      | None => body
      end
  end.



(** [subprocess.run(cmd, stdout=PIPE, stderr=PIPE, text=True)] *)
Definition subprocess_run (cmd : string) (o : run_outcome) : result CompletedProcess :=
  match o with
  | NotFound => Raise (FileNotFoundError cmd)
  | Exited rc so se => Ok {| returncode := rc; stdout := so; stderr := se |}
  end.

(** [subprocess.check_output(cmd, shell=True)]: the executable
    launched is the shell. *)
Definition check_output (cmd : string) (o : run_outcome) : result string :=
  p ← subprocess_run "/bin/sh" o;
  if (returncode p =? 0)%Z then Ok (stdout p)
  else Raise (CalledProcessError (returncode p) cmd).

Definition msg_smi_error : string := "Error executing nvidia-smi:".
Definition msg_smi_missing : string :=
  "nvidia-smi not found. Make sure NVIDIA drivers are installed and accessible.".

(** [get_cuda_gpu_model] *)
Definition get_cuda_gpu_model (h : Host) : IO (list string) :=
  try_except
    (result ← io (subprocess_run "nvidia-smi" (nvidia_smi h));
     if negb (returncode result =? 0)%Z
     then print (msg_smi_error +:+ " " +:+ stderr result);; mret []
     else
       let gpu_model := PyStr.split PyStr.newline (PyStr.strip (stdout result)) in
       mret gpu_model)
    (fun e => match e with
              | FileNotFoundError _ => Some (print msg_smi_missing;; mret [])
              | _ => None
              end).

(** [bytes.decode()]: the identity on ASCII text. *)
Definition decode (b : string) : string := b.

(** [get_cpu_model] *)
Definition get_cpu_model (h : Host) : IO string :=
  ret ← io (check_output "lscpu" (sh_lscpu h));
  let ret := decode (PyStr.bytes_strip ret) in
  let idx := PyStr.find "Model name:" ret in
  let cpu_model :=
    hd EmptyString
       (PyStr.split PyStr.newline (PyStr.strip (PyStr.slice_from (idx + 11) ret))) in
  mret cpu_model.

End Host.

(** ** Metadata builders *)

Module Meta.
Import Config Dataset Host.

Section WithBackend.
Context `{Backend}.

Definition attr (o : obj) (name : string) : IO value := io (getattr o name).

Definition strs (l : list string) : value := VList (map VStr l).

(** [get_train_meta] *)
Definition get_train_meta (config : obj) : IO obj :=
  let ret : obj := ∅ in
  v ← attr config "weight_decay"; let ret := <["weight_decay" := v]> ret in
  v ← attr config "lr"; let ret := <["learning_rate" := v]> ret in
  v ← attr config "dropout"; let ret := <["dropout" := v]> ret in
  mret ret.

(** [get_full_meta] *)
Definition get_full_meta (h : Host) (config : obj) (data : Dataset) : IO obj :=
  let ret : obj := ∅ in
  v ← attr config "graph_name"; let ret := <["graph_name" := v]> ret in
  let ret := <["train_mode" := VStr "full"]> ret in
  cpu ← get_cpu_model h; let ret := <["cpu_model" := VStr cpu]> ret in
  let ret := <["num_node" := VInt (num_nodes (graph data))]> ret in
  let ret := <["num_edge" := VInt (num_edges (graph data))]> ret in
  let ret := <["feat_width" := VInt (in_feats data)]> ret in
  v ← attr config "num_epoch"; let ret := <["num_epoch" := v]> ret in
  v ← attr config "num_partition"; let ret := <["num_partition" := v]> ret in
  mret ret.

(** [get_minibatch_meta] *)
Definition get_minibatch_meta (h : Host) (config : obj) (data : Dataset) : IO obj :=
  let ret : obj := ∅ in
  v ← attr config "graph_name"; let ret := <["graph_name" := v]> ret in
  let ret := <["train_mode" := VStr "minibatch"]> ret in
  let ret := <["num_node" := VInt (num_nodes (graph data))]> ret in
  let ret := <["num_edge" := VInt (num_edges (graph data))]> ret in
  cpu ← get_cpu_model h; let ret := <["cpu_model" := VStr cpu]> ret in
  let ret := <["feat_width" := VInt (in_feats data)]> ret in
  v ← attr config "batch_size"; let ret := <["batch_size" := v]> ret in
  v ← attr config "fanouts"; let ret := <["fanouts" := v]> ret in
  v ← attr config "num_epoch"; let ret := <["num_epoch" := v]> ret in
  v ← attr config "num_partition"; let ret := <["num_partition" := v]> ret in
  mret ret.

(** [get_quiver_meta] *)
Definition get_quiver_meta (h : Host) (config : obj) (data : Dataset) : IO obj :=
  let ret : obj := ∅ in
  v ← attr config "graph_name"; let ret := <["graph_name" := v]> ret in
  let ret := <["system_name" := VStr "quiver"]> ret in
  let ret := <["train_mode" := VStr "minibatch"]> ret in
  v ← attr config "sample_mode"; let ret := <["sample_mode" := v]> ret in
  let ret := <["num_node" := VInt (num_nodes (graph data))]> ret in
  let ret := <["num_edge" := VInt (num_edges (graph data))]> ret in
  cpu ← get_cpu_model h; let ret := <["cpu_model" := VStr cpu]> ret in
  gpu ← get_cuda_gpu_model h; let ret := <["gpu_model" := strs gpu]> ret in
  let ret := <["feat_width" := VInt (in_feats data)]> ret in
  v ← attr config "batch_size"; let ret := <["batch_size" := v]> ret in
  v ← attr config "fanouts"; let ret := <["fanouts" := v]> ret in
  v ← attr config "num_epoch"; let ret := <["num_epoch" := v]> ret in
  v ← attr config "num_partition"; let ret := <["num_partition" := v]> ret in
  mret ret.

End WithBackend.

End Meta.

(** ** Sample inputs *)

Module Samples.
Import Config Dataset Host.

(** A stand-in for the tensor and graph libraries: a tensor is its
    entries and the index of the device holding it, a graph its node
    count and its edge list. *)
#[export] Instance backend : Backend := {|
  Tensor := list Z * nat;
  Device := nat;
  Graph := Z * list (Z * Z);
  tensor_to := fun t d => Ok (fst t, d);
  num_nodes := fun g => fst g;
  num_edges := fun g => Z.of_nat (length (snd g)) |}.

(** Ten nodes on a ring, each edge in both directions: twenty edges. *)
Definition ring : Z * list (Z * Z) :=
  (10%Z,
   flat_map (fun i => [(i, (i + 1) mod 10); ((i + 1) mod 10, i)])%Z
     (map Z.of_nat (seq 0 10))).

Definition data : Dataset :=
  {| graph := ring;
     feat := None;
     label := ([0; 1; 0; 1; 0; 1; 0; 1; 0; 1]%Z, 0%nat);
     train_mask := ([0; 1; 2; 3; 4; 5]%Z, 0%nat);
     val_mask := ([6; 7]%Z, 0%nat);
     test_mask := ([8; 9]%Z, 0%nat);
     num_classes := 2;
     in_feats := 8 |}.

(** The parsed command line with its defaults. *)
Definition args : obj :=
  list_to_map
    [("sample_mode", VStr "gpu"); ("batch_size", VInt 1024);
     ("fanouts", VList [VInt 15; VInt 15; VInt 15]);
     ("num_epoch", VInt 1); ("hid_size", VInt 256);
     ("num_layers", VInt 3); ("num_head", VInt 4);
     ("lr", VFloat (5 # 1000)); ("weight_decay", VFloat (5 # 10000));
     ("dropout", VFloat (1 # 2)); ("world_size", VInt 1);
     ("num_partition", VInt 1); ("graph_name", VStr "ogbn-arxiv");
     ("data_dir", VStr "/data"); ("model", VStr "gat");
     ("log_file", VStr "log.json"); ("eval", VBool true)].

Definition config : obj :=
  match Config.init args with
  | Ok c => c
  | Raise _ => ∅
  end.

Definition nl : string := String PyStr.newline EmptyString.

(** A host with [lscpu] and without [nvidia-smi]. *)
Definition host_cpu_only : Host :=
  {| sh_lscpu :=
       Exited 0 ("Architecture: x86_64" +:+ nl +:+
                 "Model name:   Example CPU @ 2.00GHz" +:+ nl +:+
                 "Thread(s) per core: 2" +:+ nl) "";
     nvidia_smi := NotFound |}.

(** A host where the shell does not find [lscpu]. *)
Definition host_without_lscpu : Host :=
  {| sh_lscpu := Exited 127 "" "/bin/sh: 1: lscpu: not found";
     nvidia_smi := Exited 0 ("Example GPU" +:+ nl) "" |}.


End Samples.

(** ** A measured phase: what callers do with a Timer *)

Module TimerRuns.
Import Timer.

(** What the training loop does between [start()] and [stop()]. *)
Inductive op : Type :=
| Wait (k : nat)
| Record.

Fixpoint count_records (ops : list op) : nat :=
  match ops with
  | [] => 0
  | Wait _ :: ops' => count_records ops'
  | Record :: ops' => S (count_records ops')
  end.

(** The sum of a list of durations. *)
Definition total (ds : list Q) : Q := fold_right Qplus 0%Q ds.

Section WithClock.

Variable clock : nat -> Q.

(** The two stored timestamps are readings made in that order. *)
Definition ordered (s : St) : Prop :=
  forall a b, start_time (tm s) = Some a -> last_record (tm s) = Some b ->
    exists i j, (i <= j)%nat /\ a = clock i /\ b = clock j.

(** Run the operations in order, collecting what the [record()] calls
    return. *)
Fixpoint run_ops (ops : list op) : M (list Q) :=
  match ops with
  | [] => mret []
  | Wait k :: ops' => modify (wait k);; run_ops ops'
  | Record :: ops' => d ← record clock; ds ← run_ops ops'; mret (d :: ds)
  end.

(** [t.start(); ...; t.stop()] *)
Definition phase (ops : list op) : M (list Q * Q) :=
  start clock;;
  ds ← run_ops ops;
  elapsed ← stop clock;
  mret (ds, elapsed).

End WithClock.

End TimerRuns.

(** ** Callers of the Logger *)

Module LoggerStore.
Import Logger.

(** [logger.append(step)] for each reference of a list, in order. *)
Definition append_all (ls : list loc) (w : World) : World :=
  foldl (fun w l => append l w) w ls.

(** [d[key] = v] on a mapping the caller holds. *)
Definition setitem (d : loc) (key : string) (v : value) (w : World) : World :=
  {| objs := alter (fun a => <[key := v]> a) d (objs w); steps := steps w |}.

End LoggerStore.

(** ** The command line and the Config built from it *)

Module Args.
Import Config.

(** The [dest] of each [parser.add_argument] call of [get_args], in the
    order of the calls. *)
Definition parser_dests : list string :=
  ["sample_mode"; "batch_size"; "fanouts"; "num_epoch"; "hid_size";
   "num_layers"; "num_head"; "lr"; "weight_decay"; "dropout";
   "world_size"; "num_partition"; "graph_name"; "data_dir"; "model";
   "log_file"; "eval"].

(** [get_args] from the point where [parser.parse_args()] has returned
    the namespace [args]. *)
Definition get_args (args : obj) : stateE Globals obj :=
  config ← lift (Config.init args);
  modify (set_global_config (Some config));;
  mret config.

(** Copying attributes one by one, stopping at the first that is
    missing: the shape of [Config.__init__]. *)
Fixpoint copy_attrs (args : obj) (names : list string) (self : obj) : result obj :=
  match names with
  | [] => Ok self
  | f :: names' =>
      match getattr args f with
      | Ok v => copy_attrs args names' (setattr self f v)
      | Raise e => Raise e
      end
  end.

End Args.

(** ** Built-ins the remaining helpers rely on *)

Module Builtin.

(** The exceptions of the built-in operations used below. The string of
    a [ValueError] says which operation refused its input. *)
Inductive error : Type :=
| KeyError (key : Z)
| ValueError (what : string).

Inductive answer (A : Type) : Type :=
| Returns (a : A)
| Throws (e : error).
Arguments Returns {A} a.
Arguments Throws {A} e.

#[export] Instance answer_ret : MRet answer := @Returns.
#[export] Instance answer_bind : MBind answer :=
  fun A B k r => match r with Returns a => k a | Throws e => Throws e end.

(** Python's own conversions, which this module calls and does not
    define: [float(s)], the product of a float and an integer, and
    [int(s)]. *)
Class Conversions : Type := {
  float : Type;
  float_of_str : string -> answer float;
  fmul : float -> Z -> float;
  int_of_str : string -> answer Z }.

(** [c in s] for a one-character [c]. *)
Fixpoint has_char (c : ascii) (s : string) : bool :=
  match s with
  | EmptyString => false
  | String b s' => if Ascii.eqb b c then true else has_char c s'
  end.

(** [sub in s] *)
Definition contains (sub s : string) : bool :=
  match String.index 0 sub s with
  | Some _ => true
  | None => false
  end.

(** [sep.join(parts)] for a one-character [sep]. *)
Fixpoint join (sep : ascii) (parts : list string) : string :=
  match parts with
  | [] => EmptyString
  | [p] => p
  | p :: ps => p +:+ String sep (join sep ps)
  end.

(** The number of occurrences of a character. *)
Fixpoint count_char (c : ascii) (s : string) : nat :=
  match s with
  | EmptyString => 0
  | String b s' => (if Ascii.eqb b c then 1 else 0) + count_char c s'
  end.

End Builtin.

(** ** NUMA helpers *)

Module Numa.
Import Builtin.

Section WithInfo.

(** [numa_info]: for each NUMA node id, the list of its hardware
    threads. It comes from the [numa] module. *)
Variable numa_info : gmap Z (list Z).

(** [get_num_numa] *)
Definition get_num_numa : nat := size numa_info.

(** [get_load_compute_cores] *)
Definition get_load_compute_cores (numa_id : Z) : answer (list Z * list Z) :=
  match numa_info !! numa_id with
  | None => Throws (KeyError numa_id)
  | Some all_threads =>
      let num_cores := (length all_threads / 2)%nat in
      let loader_cores := take num_cores all_threads in
      let compute_cores := drop num_cores all_threads in
      Returns (loader_cores, compute_cores)
  end.

End WithInfo.

End Numa.

(** ** Cache sizes and fanouts given as text *)

Module Sizes.
Import Builtin.

Definition unpack_too_many : string := "too many values to unpack (expected 2)".
Definition unpack_too_few : string := "not enough values to unpack (expected 2)".

(** [n, _ = parts] *)
Definition unpack_pair (parts : list string) : answer (string * string) :=
  match parts with
  | [n; rest] => Returns (n, rest)
  | [] | [_] => Throws (ValueError unpack_too_few)
  | _ => Throws (ValueError unpack_too_many)
  end.

Section WithConversions.
Context `{Conversions}.

(** [str_to_bytes]; falling off the end returns [None]. *)
Definition str_to_bytes (cache_size : string) : answer (option float) :=
  if contains "G" cache_size then
    p ← unpack_pair (PyStr.split "G" cache_size);
    n ← float_of_str (fst p);
    mret (Some (fmul (fmul (fmul n 1024) 1024) 1024))
  else if contains "M" cache_size then
    p ← unpack_pair (PyStr.split "M" cache_size);
    n ← float_of_str (fst p);
    mret (Some (fmul (fmul n 1024) 1024))
  else if contains "K" cache_size then
    p ← unpack_pair (PyStr.split "K" cache_size);
    n ← float_of_str (fst p);
    mret (Some (fmul n 1024))
  else mret None.

(** The list comprehension [[f(x) for x in xs]]: left to right, the
    first exception ends it. *)
Fixpoint comprehension {A B} (f : A -> answer B) (xs : list A) : answer (list B) :=
  match xs with
  | [] => Returns []
  | x :: xs' => y ← f x; ys ← comprehension f xs'; mret (y :: ys)
  end.

(** The [type] of the [--fanouts] option of [get_args]. *)
Definition parse_fanouts (fanouts : string) : answer (list Z) :=
  comprehension int_of_str (PyStr.split "," fanouts).

End WithConversions.

End Sizes.

(** ** Sample conversions *)

Module SampleConversions.
Import Builtin.

(** Decimal integers, with an optional minus sign. *)
Definition decimal (s : string) : answer Z :=
  match DecimalString.NilZero.int_of_string s with
  | Some d => Returns (Z.of_int d)
  | None => Throws (ValueError ("invalid literal: " +:+ s))
  end.

(** A stand-in for Python's conversions: floats are rationals, and
    both [float] and [int] read decimal integers only. *)
#[export] Instance conversions : Conversions := {|
  float := Q;
  float_of_str := fun s => n ← decimal s; mret (inject_Z n);
  fmul := fun q z => (q * inject_Z z)%Q;
  int_of_str := decimal |}.

(** [str(n)] for an integer. *)
Definition str_of_int (n : Z) : string :=
  DecimalString.NilZero.string_of_int (Z.to_int n).

End SampleConversions.

(** ** Shapes of text the probes meet *)

Module Text.

(** The text is not empty and its first character is not whitespace. *)
Definition starts_clean (ws : ascii -> bool) (s : string) : bool :=
  match s with
  | EmptyString => false
  | String c _ => negb (ws c)
  end.

(** The text is not empty and its last character is not whitespace. *)
Definition ends_clean (ws : ascii -> bool) (s : string) : bool :=
  starts_clean ws (String.rev s).

(** Whitespace only. *)
Fixpoint all_space (ws : ascii -> bool) (s : string) : bool :=
  match s with
  | EmptyString => true
  | String c s' => ws c && all_space ws s'
  end.

(** The text is at the end of a line: nothing follows, or a newline
    does. *)
Definition line_end (s : string) : bool :=
  match s with
  | EmptyString => true
  | String c _ => Ascii.eqb c PyStr.newline
  end.

End Text.

(** * Properties *)

(** Membership of a given name in a given list of names. *)
Ltac by_lookup := apply (bool_decide_unpack _); vm_compute; reflexivity.

(** ** Timer *)

Section TimerSpec.
Import Timer.

Variable clock : nat -> Q.

Ltac run_method :=
  cbv [start stop record self time_time set_start_time set_last_record
       set_end_time mbind mret stateE_bind stateE_ret raise];
  cbn [tm reads start_time last_record end_time].

Lemma start_on_idle (s : St) :
  start_time (tm s) = None ->
  start clock s =
    (Ok tt, {| tm := {| start_time := Some (clock (reads s));
                        last_record := Some (clock (S (reads s)));
                        end_time := end_time (tm s) |};
               reads := S (S (reads s)) |}).
Proof. intros E. run_method. now rewrite E. Qed.

Lemma start_on_running (s : St) :
  start_time (tm s) <> None ->
  start clock s = (Raise (RuntimeError msg_already_running), s).
Proof. intros E. run_method. now destruct (start_time (tm s)). Qed.

Lemma stop_on_running (s : St) (t0 : Q) :
  start_time (tm s) = Some t0 ->
  stop clock s =
    (Ok (clock (reads s) - t0)%Q, {| tm := init; reads := S (reads s) |}).
Proof. intros E. run_method. now rewrite E. Qed.

Lemma stop_on_idle (s : St) :
  start_time (tm s) = None ->
  stop clock s = (Raise (RuntimeError msg_not_running), s).
Proof. intros E. run_method. now rewrite E. Qed.

Lemma record_on_set (s : St) (last : Q) :
  last_record (tm s) = Some last ->
  record clock s =
    (Ok (clock (reads s) - last)%Q,
     {| tm := {| start_time := start_time (tm s);
                 last_record := Some (clock (S (reads s)));
                 end_time := end_time (tm s) |};
        reads := S (S (reads s)) |}).
Proof. intros E. run_method. now rewrite E. Qed.

Lemma record_on_unset (s : St) :
  last_record (tm s) = None ->
  record clock s = (Raise (RuntimeError msg_not_running), s).
Proof. intros E. run_method. now rewrite E. Qed.

Lemma past_later (s s' : St) (o : option Q) :
  (reads s <= reads s')%nat -> past clock s o -> past clock s' o.
Proof.
  intros Hle Hp x Hx. destruct (Hp x Hx) as (i & Hi & ->).
  exists i. split; [lia | reflexivity].
Qed.

Lemma past_reading (s : St) (i : nat) :
  (i < reads s)%nat -> past clock s (Some (clock i)).
Proof. intros Hi x [= <-]. now exists i. Qed.

Lemma past_none (s : St) : past clock s None.
Proof. intros x [=]. Qed.

(** Every state a timer can be in satisfies [inv]. *)
Lemma reachable_inv (s : St) : reachable clock s -> inv clock s.
Proof.
  induction 1 as [n | k s _ IH | c s _ IH].
  - repeat split; auto using past_none.
  - destruct IH as (He & Hiff & Hs & Hl).
    repeat split; cbn; try tauto.
    + eapply past_later; [|exact Hs]. cbn; lia.
    + eapply past_later; [|exact Hl]. cbn; lia.
  - pose proof IH as Hkeep.
    destruct IH as (He & Hiff & Hs & Hl). destruct c; cbn [run_call].
    + destruct (start_time (tm s)) as [t0|] eqn:E.
      * rewrite start_on_running by congruence. exact Hkeep.
      * rewrite start_on_idle by assumption. cbn [snd].
        repeat split; cbn; try congruence; try discriminate.
        all: apply past_reading; cbn; lia.
    + destruct (start_time (tm s)) as [t0|] eqn:E.
      * rewrite (stop_on_running _ _ E). cbn [snd].
        repeat split; auto using past_none.
      * rewrite stop_on_idle by assumption. exact Hkeep.
    + destruct (last_record (tm s)) as [l|] eqn:E.
      * rewrite (record_on_set _ _ E). cbn [snd].
        repeat split; cbn; try congruence; try discriminate.
        -- intros E'. apply Hiff in E'. congruence.
        -- eapply past_later; [|exact Hs]. cbn; lia.
        -- apply past_reading; cbn; lia.
      * rewrite record_on_unset by assumption. exact Hkeep.
Qed.

(** C2. On a timer in any state its methods can bring it to,
    [start()] while Running and [record()] or [stop()] while Idle raise
    the misuse error at once: no clock reading is made and every
    timestamp is as it was before the call. *)
Theorem timer_misuse_fails (s : St) :
  reachable clock s ->
  (Running s ->
     start clock s = (Raise (RuntimeError msg_already_running), s)) /\
  (Idle s ->
     record clock s = (Raise (RuntimeError msg_not_running), s) /\
     stop clock s = (Raise (RuntimeError msg_not_running), s)).
Proof.
  intros Hr. destruct (reachable_inv s Hr) as (_ & Hiff & _ & _). split.
  - apply start_on_running.
  - intros Hidle. split.
    + apply record_on_unset. now apply Hiff.
    + now apply stop_on_idle.
Qed.

Lemma during_run_frame (s s' : St) :
  during_run clock s s' ->
  start_time (tm s') = start_time (tm s) /\ (reads s <= reads s')%nat.
Proof.
  induction 1 as [s | k s s' _ [IHt IHr] | s s' _ [IHt IHr]].
  - split; [reflexivity | lia].
  - cbn. split; [assumption | lia].
  - destruct (last_record (tm s')) as [l|] eqn:E.
    + rewrite (record_on_set _ _ E). cbn. split; [assumption | lia].
    + rewrite (record_on_unset _ E). cbn. split; [assumption | lia].
Qed.

Lemma elapsed_nonneg (i j : nat) :
  monotone clock -> (i <= j)%nat -> (0 <= clock j - clock i)%Q.
Proof. intros Hm Hle. specialize (Hm i j Hle). lra. Qed.

(** C3. With a monotone clock: once [start()] has succeeded, a later
    [stop()] (after any [record()] calls and any delay) returns the time
    since that [start()], which is not negative, clears the three
    timestamps, and leaves a timer on which [start()] succeeds again. *)
Theorem stop_after_start (s0 s1 s2 : St) :
  monotone clock ->
  start clock s0 = (Ok tt, s1) ->
  during_run clock s1 s2 ->
  exists (elapsed : Q) (s3 : St),
    stop clock s2 = (Ok elapsed, s3) /\
    elapsed = (clock (reads s2) - clock (reads s0))%Q /\
    (0 <= elapsed)%Q /\
    tm s3 = init /\
    Idle s3 /\
    forall k, fst (start clock (wait k s3)) = Ok tt.
Proof.
  intros Hm Hstart Hrun.
  destruct (start_time (tm s0)) as [t0|] eqn:E0.
  { rewrite start_on_running in Hstart by congruence. discriminate. }
  rewrite (start_on_idle _ E0) in Hstart. injection Hstart as <-.
  destruct (during_run_frame _ _ Hrun) as [Ht Hr]. cbn in Ht, Hr.
  eexists _, _. split; [apply (stop_on_running _ _ Ht)|].
  split; [reflexivity|]. split; [apply elapsed_nonneg; [assumption | lia]|].
  split; [reflexivity|]. split; [reflexivity|].
  intros k. now rewrite start_on_idle.
Qed.

Lemma record_n_from (n : nat) : forall (s : St) (last : Q) (i : nat),
  monotone clock ->
  last_record (tm s) = Some last -> last = clock i -> (i < reads s)%nat ->
  exists s',
    record_n clock n s = (Ok (expected_deltas clock last (reads s) n), s') /\
    Forall (fun d => 0 <= d)%Q (expected_deltas clock last (reads s) n) /\
    start_time (tm s') = start_time (tm s) /\
    end_time (tm s') = end_time (tm s) /\
    is_Some (last_record (tm s')) /\
    reads s' = (2 * n + reads s)%nat.
Proof.
  induction n as [|n IH]; intros s last i Hm El -> Hi.
  - exists s. cbn. rewrite El. repeat split; eauto.
  - cbn [record_n expected_deltas].
    cbv [mbind stateE_bind]. rewrite (record_on_set _ _ El).
    match goal with
    | |- context [record_n clock n ?st] =>
        destruct (IH st (clock (S (reads s))) (S (reads s)) Hm
                    eq_refl eq_refl ltac:(cbn; lia))
          as (s' & Hrun & Hpos & Hst & Hen & Hla & Hrd)
    end.
    cbn [tm reads start_time end_time] in Hrun, Hpos, Hst, Hen, Hrd.
    exists s'. rewrite Hrun. cbn [mret stateE_ret].
    repeat split; try assumption.
    + constructor; [apply elapsed_nonneg; [assumption | lia] | assumption].
    + lia.
Qed.

(** C4. With a monotone clock, on a Running timer: a [record()] call
    returns the time since the timestamp the previous record-or-start
    call left, which is not negative, stores a new reading of the clock
    as the last-record timestamp and changes nothing else; so do [n]
    calls in a row, for every [n], and the timer is Running after
    them. *)
Theorem record_deltas (s : St) :
  monotone clock ->
  reachable clock s ->
  Running s ->
  exists last : Q,
    last_record (tm s) = Some last /\
    record clock s =
      (Ok (clock (reads s) - last)%Q,
       {| tm := {| start_time := start_time (tm s);
                   last_record := Some (clock (S (reads s)));
                   end_time := end_time (tm s) |};
          reads := S (S (reads s)) |}) /\
    (0 <= clock (reads s) - last)%Q /\
    forall n : nat, exists s' : St,
      record_n clock n s =
        (Ok (expected_deltas clock last (reads s) n), s') /\
      Forall (fun d => 0 <= d)%Q (expected_deltas clock last (reads s) n) /\
      start_time (tm s') = start_time (tm s) /\
      end_time (tm s') = end_time (tm s) /\
      Running s'.
Proof.
  intros Hm Hr Hrun.
  destruct (reachable_inv s Hr) as (_ & Hiff & _ & Hpast).
  destruct (last_record (tm s)) as [last|] eqn:El.
  2: { exfalso. apply Hrun. now apply Hiff. }
  destruct (Hpast last eq_refl) as (i & Hi & ->).
  exists (clock i). split; [reflexivity|].
  split; [apply (record_on_set _ _ El)|].
  split; [apply elapsed_nonneg; [assumption | lia]|].
  intros n.
  destruct (record_n_from n s (clock i) i Hm El eq_refl Hi)
    as (s' & Hn & Hpos & Hst & Hen & _ & _).
  exists s'. repeat split; try assumption.
  unfold Running. now rewrite Hst.
Qed.

End TimerSpec.

Section TimerWitnesses.
Import Timer.

Lemma seconds_monotone : monotone seconds.
Proof.
  intros i j Hle. unfold seconds. rewrite <- Zle_Qle. lia.
Defined.

Lemma timer_misuse_fails_witness :
  start seconds (run_call seconds CStart fresh_timer) =
    (Raise (RuntimeError msg_already_running),
     run_call seconds CStart fresh_timer) /\
  record seconds fresh_timer =
    (Raise (RuntimeError msg_not_running), fresh_timer) /\
  stop seconds fresh_timer =
    (Raise (RuntimeError msg_not_running), fresh_timer).
Proof.
  split.
  - apply (timer_misuse_fails seconds (run_call seconds CStart fresh_timer)).
    + apply reach_call. apply (reach_init seconds 0).
    + vm_compute. discriminate.
  - apply (timer_misuse_fails seconds fresh_timer).
    + apply (reach_init seconds 0).
    + reflexivity.
Defined.

Lemma stop_after_start_witness :
  exists (elapsed : Q) (s3 : St),
    stop seconds
      (snd (record seconds (wait 3 (snd (start seconds fresh_timer))))) =
      (Ok elapsed, s3) /\
    elapsed = (seconds 7 - seconds 0)%Q /\
    (0 <= elapsed)%Q /\
    tm s3 = init /\
    Idle s3 /\
    forall k, fst (start seconds (wait k s3)) = Ok tt.
Proof.
  apply (stop_after_start seconds fresh_timer
           (snd (start seconds fresh_timer))).
  - exact seconds_monotone.
  - reflexivity.
  - apply run_record. apply run_wait. apply run_here.
Defined.

Lemma record_deltas_witness :
  exists last : Q,
    last_record (tm (run_call seconds CStart fresh_timer)) = Some last /\
    record seconds (run_call seconds CStart fresh_timer) =
      (Ok (seconds 2 - last)%Q,
       {| tm := {| start_time := Some (seconds 0);
                   last_record := Some (seconds 3);
                   end_time := None |};
          reads := 4 |}) /\
    (0 <= seconds 2 - last)%Q /\
    forall n : nat, exists s' : St,
      record_n seconds n (run_call seconds CStart fresh_timer) =
        (Ok (expected_deltas seconds last 2 n), s') /\
      Forall (fun d => 0 <= d)%Q (expected_deltas seconds last 2 n) /\
      start_time (tm s') = Some (seconds 0) /\
      end_time (tm s') = None /\
      Running s'.
Proof.
  apply (record_deltas seconds (run_call seconds CStart fresh_timer)).
  - exact seconds_monotone.
  - apply reach_call. apply (reach_init seconds 0).
  - vm_compute. discriminate.
Defined.

(** Scenario A on the sample clock: [start()], some delay, [record()],
    [stop()], [start()] again. *)
Example timer_scenario :
  let s1 := wait 5 (snd (start seconds fresh_timer)) in
  fst (record seconds s1) = Ok (inject_Z 6) /\
  fst (stop seconds (snd (record seconds s1))) = Ok (inject_Z 9) /\
  tm (snd (stop seconds (snd (record seconds s1)))) = init /\
  fst (start seconds (snd (stop seconds (snd (record seconds s1))))) = Ok tt.
Proof. repeat split; vm_compute; reflexivity. Qed.

End TimerWitnesses.

(** ** Logger *)

Section LoggerSpec.
Import Logger.

Lemma fields_records (s : LogStep) : records (fields s) s.
Proof. unfold records, fields. repeat split; by simplify_map_eq. Qed.

Lemma list_loop (l acc : list loc) :
  foldl (fun ret step => ret ++ [dict step]) acc l = acc ++ l.
Proof.
  revert acc. induction l as [|x l IH]; intros acc; cbn.
  - by rewrite app_nil_r.
  - rewrite IH. unfold dict. by rewrite <- app_assoc.
Qed.

Lemma list_returns_steps (w : World) : list_ w = (steps w, w).
Proof. unfold list_. by rewrite list_loop. Qed.

(** Allocating a step leaves the objects already stored as they are. *)
Lemma new_LogStep_keeps (s : LogStep) (w : World) (l : loc) (d : attrs) :
  objs w !! l = Some d -> objs (snd (new_LogStep s w)) !! l = Some d.
Proof.
  intros Hl. cbn. rewrite lookup_insert_ne; [done|].
  intros <-. pose proof (is_fresh (dom (objs w))) as Hf.
  apply not_elem_of_dom in Hf. congruence.
Qed.

Lemma log_all_stored (ss : list LogStep) : forall (w : World) (done : list LogStep),
  Forall2 (fun l s => objs w !! l = Some (fields s)) (steps w) done ->
  Forall2 (fun l s => objs (log_all ss w) !! l = Some (fields s))
    (steps (log_all ss w)) (done ++ ss).
Proof.
  induction ss as [|s ss IH]; intros w done Hw; cbn.
  - by rewrite app_nil_r.
  - replace (done ++ s :: ss) with ((done ++ [s]) ++ ss)
      by (by rewrite <- app_assoc).
    apply IH. cbn. apply Forall2_app.
    + eapply Forall2_impl; [exact Hw|]. intros l s' Hl.
      apply (new_LogStep_keeps s w l _ Hl).
    + repeat constructor. by rewrite lookup_insert_eq.
Qed.

(** C5. Whatever steps are built and appended to a new logger, and
    whatever else the store holds: [list()] hands back one mapping per
    step, in the order of the appends, each carrying the ten fields of
    its step; the call changes neither the logger nor the store, and a
    second call returns the same. *)
Theorem logger_list_roundtrip (ss : list LogStep) (w0 : World) :
  let w := log_all ss (init w0) in
  Forall2 (fun o s => exists d, o = Some d /\ d = fields s /\ records d s)
    (read w (fst (list_ w))) ss /\
  snd (list_ w) = w /\
  list_ (snd (list_ w)) = list_ w.
Proof.
  intros w. rewrite list_returns_steps. cbn [fst snd].
  split; [|split; [reflexivity | by rewrite list_returns_steps]].
  unfold read. apply Forall2_fmap_l.
  eapply Forall2_impl.
  - apply (log_all_stored ss (init w0) []). constructor.
  - cbn. intros l s Hl. exists (fields s).
    split; [exact Hl | split; [reflexivity | apply fields_records]].
Qed.

(** Scenario B: two steps, with losses 1.2 then 1.0. *)
Example logger_scenario :
  let s0 := mkLogStep 0 (3 # 10) 0 0 0 0 0 0 0 (12 # 10) in
  let s1 := mkLogStep 1 (4 # 10) 0 0 0 0 0 0 0 (10 # 10) in
  let w := log_all [s0; s1] (init {| objs := ∅; steps := [] |}) in
  map (fun o => o ≫= (.!! "loss")) (read w (fst (list_ w))) =
    [Some (VFloat (12 # 10)); Some (VFloat (10 # 10))].
Proof. vm_compute. reflexivity. Qed.

End LoggerSpec.

(** ** Config *)

Section ConfigSpec.
Import Config.

Lemma set_all_snoc (cs : list (option obj)) (c : option obj) (g : Globals) :
  set_all (cs ++ [c]) g = set_global_config c (set_all cs g).
Proof. unfold set_all. by rewrite foldl_snoc. Qed.

(** C6. Before any registration [get_global_config] returns [None];
    after any sequence of [set_global_config] calls it returns the
    argument of the last one, whatever was registered before; reading
    does not change what is registered. *)
Theorem get_returns_last_set :
  fst (get_global_config module_init) = None /\
  (forall (cs : list (option obj)) (c : option obj) (g : Globals),
      fst (get_global_config (set_all (cs ++ [c]) g)) = c) /\
  (forall (cs : list (option obj)),
      get_global_config (set_all cs module_init) =
        (default None (last cs), set_all cs module_init)).
Proof.
  split; [reflexivity|]. split.
  - intros cs c g. by rewrite set_all_snoc.
  - intros cs. destruct cs as [|c cs _] using rev_ind; [reflexivity|].
    rewrite set_all_snoc, last_snoc. reflexivity.
Qed.

(** What a successful [__init__] leaves: the assigned attributes, each
    with the value [args] has for it, and nothing else. *)
Lemma init_assigns (args cfg : obj) :
  init args = Ok cfg ->
  (forall f, f ∈ assigned_fields ->
     exists v, args !! f = Some v /\ cfg !! f = Some v) /\
  (forall f, f ∉ assigned_fields -> cfg !! f = None).
Proof.
  unfold init, getattr. cbv [mbind mret result_bind result_ret setattr].
  intros Hinit.
  repeat match type of Hinit with
         | context [args !! ?n] =>
             destruct (args !! n) eqn:?; [|discriminate Hinit]
         end.
  injection Hinit as <-. split.
  - intros f Hf. unfold assigned_fields in Hf.
    repeat (apply elem_of_cons in Hf as [-> | Hf];
            [eexists; split; [eassumption | by simplify_map_eq]|]).
    by apply elem_of_nil in Hf.
  - intros f Hf. unfold assigned_fields in Hf.
    repeat (rewrite lookup_insert_ne; [|intros <-; apply Hf; by_lookup]).
    apply lookup_empty.
Qed.

(** C10. Whenever the constructor accepts its argument, the instance
    has no [world_size] attribute although the class declares the field,
    so reading it raises [AttributeError]; every other declared field
    holds the value the argument has for it. *)
Theorem world_size_never_assigned (args cfg : obj) :
  init args = Ok cfg ->
  "world_size" ∈ declared_fields /\
  cfg !! "world_size" = None /\
  getattr cfg "world_size" = Raise (AttributeError "world_size") /\
  forall f, f ∈ declared_fields -> f <> "world_size" ->
    exists v, getattr args f = Ok v /\ getattr cfg f = Ok v.
Proof.
  intros Hinit. destruct (init_assigns args cfg Hinit) as [Hin Hout].
  assert (Hws : cfg !! "world_size" = None).
  { apply Hout. by_lookup. }
  split; [by_lookup|].
  split; [exact Hws|]. split; [unfold getattr; by rewrite Hws|].
  intros f Hf Hne.
  assert (Ha : f ∈ assigned_fields).
  { unfold declared_fields in Hf.
    repeat (apply elem_of_cons in Hf as [-> | Hf]; [by_lookup || done|]).
    by apply elem_of_nil in Hf. }
  destruct (Hin f Ha) as (v & Hargs & Hcfg).
  exists v. unfold getattr. by rewrite Hargs, Hcfg.
Qed.

Lemma world_size_never_assigned_witness :
  "world_size" ∈ declared_fields /\
  Samples.config !! "world_size" = None /\
  getattr Samples.config "world_size" = Raise (AttributeError "world_size") /\
  forall f, f ∈ declared_fields -> f <> "world_size" ->
    exists v, getattr Samples.args f = Ok v /\ getattr Samples.config f = Ok v.
Proof.
  apply (world_size_never_assigned Samples.args Samples.config).
  vm_compute. reflexivity.
Defined.

End ConfigSpec.

(** ** Dataset *)

Section DatasetSpec.
Import Dataset.
Context `{Backend}.

Ltac run_to :=
  cbv [to mbind stateE_bind get lift modify];
  repeat match goal with
         | |- context [tensor_to ?t ?dev] =>
             destruct (tensor_to t dev) eqn:?; cbn
         end.

(** C7. [to(device)] never touches the graph handle, the feature
    tensor, the class count or the feature width; and when the library
    moves the four tensors, the dataset after the call is the one before
    it with the label and the three index sets replaced by their moved
    versions. *)
Theorem to_moves_label_and_masks (device : Device) (d : Dataset) :
  graph (snd (to device d)) = graph d /\
  feat (snd (to device d)) = feat d /\
  num_classes (snd (to device d)) = num_classes d /\
  in_feats (snd (to device d)) = in_feats d /\
  forall l tr va te : Tensor,
    tensor_to (label d) device = Ok l ->
    tensor_to (train_mask d) device = Ok tr ->
    tensor_to (val_mask d) device = Ok va ->
    tensor_to (test_mask d) device = Ok te ->
    to device d =
      (Ok tt,
       {| graph := graph d; feat := feat d;
          label := l; train_mask := tr; val_mask := va; test_mask := te;
          num_classes := num_classes d; in_feats := in_feats d |}).
Proof.
  repeat split.
  1-4: run_to; reflexivity.
  intros l tr va te Hl Htr Hva Hte.
  cbv [to mbind stateE_bind get lift modify].
  rewrite Hl. cbn. rewrite Htr. cbn. rewrite Hva. cbn. rewrite Hte.
  reflexivity.
Qed.

End DatasetSpec.

Lemma to_moves_label_and_masks_witness :
  @Dataset.to Samples.backend 1%nat Samples.data =
    (Ok tt,
     @Dataset.mkDataset Samples.backend Samples.ring None
       ([0; 1; 0; 1; 0; 1; 0; 1; 0; 1]%Z, 1%nat)
       ([0; 1; 2; 3; 4; 5]%Z, 1%nat)
       ([6; 7]%Z, 1%nat)
       ([8; 9]%Z, 1%nat)
       2 8).
Proof.
  apply (to_moves_label_and_masks (H := Samples.backend) 1%nat Samples.data);
    reflexivity.
Defined.

(** ** Host probes and metadata builders *)

Section MetaSpec.
Import Config Dataset Host Meta.
Context `{Backend}.


(** The CPU probe has no handler: a failing [lscpu] raises out of it,
    and nothing is printed. *)
Lemma cpu_probe_raises (h : Host) (rc : Z) (so se : string) :
  sh_lscpu h = Exited rc so se -> rc <> 0%Z ->
  get_cpu_model h = mkIO (Raise (CalledProcessError rc "lscpu")) [].
Proof.
  intros Hh Hrc. unfold get_cpu_model, check_output. rewrite Hh. cbn.
  destruct (Z.eqb_spec rc 0%Z) as [|_]; [done | reflexivity].
Qed.



(** With exit status zero the probe returns the lines of the trimmed
    output: at least one entry, the empty string when there is no
    output at all. *)
Lemma gpu_probe_zero (h : Host) (so se : string) :
  nvidia_smi h = Exited 0 so se ->
  get_cuda_gpu_model h =
    mkIO (Ok (PyStr.split PyStr.newline (PyStr.strip so))) [].
Proof. intros Hh. unfold get_cuda_gpu_model. by rewrite Hh. Qed.


Lemma attr_found (o : obj) (f : string) (v : value) :
  o !! f = Some v -> attr o f = mkIO (Ok v) [].
Proof. intros Hf. unfold attr, getattr. by rewrite Hf. Qed.

Lemma init_gives (args config : obj) (f : string) :
  Config.init args = Ok config -> f ∈ assigned_fields ->
  exists v, config !! f = Some v.
Proof.
  intros Hinit Hf. destruct (init_assigns _ _ Hinit) as [Hin _].
  destruct (Hin f Hf) as (v & _ & Hv). by exists v.
Qed.

Ltac config_attr Hinit f v Hv :=
  destruct (init_gives _ _ f Hinit ltac:(by_lookup)) as [v Hv].

Ltac run_builder :=
  cbv [mbind mret IO_bind IO_ret]; cbn [res out app].


(** A failing [lscpu] stops each builder that calls the CPU probe, for
    every constructed Config and every Dataset. *)
Lemma cpu_failure_stops_builders
    (h : Host) (rc : Z) (so se : string)
    (args config : obj) (data : Dataset) :
  sh_lscpu h = Exited rc so se -> rc <> 0%Z ->
  Config.init args = Ok config ->
  res (get_full_meta h config data) = Raise (CalledProcessError rc "lscpu") /\
  res (get_minibatch_meta h config data) =
    Raise (CalledProcessError rc "lscpu") /\
  res (get_quiver_meta h config data) =
    Raise (CalledProcessError rc "lscpu").
Proof.
  intros Hh Hrc Hinit.
  pose proof (cpu_probe_raises h rc so se Hh Hrc) as Hcpu.
  config_attr Hinit "graph_name" v1 H1.
  config_attr Hinit "sample_mode" v2 H2.
  unfold get_full_meta, get_minibatch_meta, get_quiver_meta.
  rewrite (attr_found _ _ _ H1), (attr_found _ _ _ H2), Hcpu.
  by run_builder.
Qed.


End MetaSpec.

Section MetaOnSamples.
Import Config Dataset Host Meta Samples.



(** C1. On a host where the shell does not find [lscpu], each of the
    three builders that call the CPU probe stops with the probe's
    [CalledProcessError]: no record is returned, no diagnostic is
    printed, and the fields after [cpu_model] are never assembled. The
    GPU probe next to it catches its failures; the CPU probe does
    not. *)
Theorem cpu_probe_failure_aborts_assembly :
  get_cpu_model host_without_lscpu =
    mkIO (Raise (CalledProcessError 127 "lscpu")) [] /\
  get_full_meta host_without_lscpu config data =
    mkIO (Raise (CalledProcessError 127 "lscpu")) [] /\
  get_minibatch_meta host_without_lscpu config data =
    mkIO (Raise (CalledProcessError 127 "lscpu")) [] /\
  get_quiver_meta host_without_lscpu config data =
    mkIO (Raise (CalledProcessError 127 "lscpu")) [].
Proof. repeat split; vm_compute; reflexivity. Qed.

(** The same builder on a host with [lscpu]: the model name is cut out
    of the inventory text. *)
Example full_meta_on_cpu_host :
  exists ret : obj,
    get_full_meta host_cpu_only config data = mkIO (Ok ret) [] /\
    ret !! "cpu_model" = Some (VStr "Example CPU @ 2.00GHz") /\
    ret !! "train_mode" = Some (VStr "full").
Proof. eexists. repeat split; vm_compute; reflexivity. Qed.

(** The quiver builder on a host without [nvidia-smi]: an empty
    [gpu_model], one diagnostic line, and the record is completed. *)
Example quiver_meta_without_gpu_tool :
  exists ret : obj,
    get_quiver_meta host_cpu_only config data =
      mkIO (Ok ret) [msg_smi_missing] /\
    ret !! "gpu_model" = Some (VList []) /\
    ret !! "num_partition" = Some (VInt 1).
Proof. eexists. repeat split; vm_compute; reflexivity. Qed.

(** Exit status zero and no output at all: one entry, the empty
    string. *)
Example gpu_probe_empty_output :
  get_cuda_gpu_model {| sh_lscpu := NotFound; nvidia_smi := Exited 0 "" "" |} =
    mkIO (Ok [""]) [].
Proof. reflexivity. Qed.

(** Without a "Model name:" line [find] answers -1 and the slice starts
    at index 10 of the text. *)
Example cpu_model_without_model_line :
  get_cpu_model
    {| sh_lscpu := Exited 0 ("Architecture: x86_64" +:+ nl) "";
       nvidia_smi := NotFound |} =
    mkIO (Ok "re: x86_64") [].
Proof. reflexivity. Qed.

End MetaOnSamples.

(** * Further properties *)

(** ** Timer: invariants and measured phases *)

Section TimerRunsSpec.
Import Timer TimerRuns.

Variable clock : nat -> Q.
Hypothesis clock_monotone : monotone clock.

Lemma reachable_ordered (s : St) : reachable clock s -> ordered clock s.
Proof.
  induction 1 as [n | k s _ IH | c s Hr IH].
  - intros a b [=].
  - exact IH.
  - destruct (reachable_inv clock s Hr) as (_ & _ & Hps & _).
    destruct c; cbn [run_call].
    + destruct (start_time (tm s)) as [t0|] eqn:E.
      * rewrite start_on_running by congruence. exact IH.
      * rewrite start_on_idle by assumption. intros a b [= <-] [= <-].
        exists (reads s), (S (reads s)). repeat split. lia.
    + destruct (start_time (tm s)) as [t0|] eqn:E.
      * rewrite (stop_on_running _ _ _ E). intros a b [=].
      * rewrite stop_on_idle by assumption. exact IH.
    + destruct (last_record (tm s)) as [l|] eqn:E.
      * rewrite (record_on_set _ _ _ E). cbn. intros a b Ha [= <-].
        destruct (Hps a Ha) as (i & Hi & ->).
        exists i, (S (reads s)). repeat split. lia.
      * rewrite record_on_unset by assumption. exact IH.
Qed.

(** X1. Whatever sequence of calls and delays a timer went through:
    [end_time] is [None] between calls, [start_time] and [last_record]
    are set or unset together, and with a monotone clock the last-record
    timestamp is never before the start timestamp. *)
Theorem timer_invariants (s : St) :
  reachable clock s ->
  end_time (tm s) = None /\
  (start_time (tm s) = None <-> last_record (tm s) = None) /\
  forall a b, start_time (tm s) = Some a -> last_record (tm s) = Some b ->
    (a <= b)%Q.
Proof.
  intros Hr. destruct (reachable_inv clock s Hr) as (He & Hiff & _ & _).
  split; [exact He|]. split; [exact Hiff|].
  intros a b Ha Hb.
  destruct (reachable_ordered s Hr a b Ha Hb) as (i & j & Hij & -> & ->).
  by apply clock_monotone.
Qed.

Lemma run_ops_running (ops : list op) : forall (s : St) (a : Q) (j : nat),
  start_time (tm s) = Some a ->
  last_record (tm s) = Some (clock j) -> (j < reads s)%nat ->
  exists ds s' j',
    run_ops clock ops s = (Ok ds, s') /\
    length ds = count_records ops /\
    Forall (fun d => 0 <= d)%Q ds /\
    start_time (tm s') = Some a /\
    last_record (tm s') = Some (clock j') /\ (j' < reads s')%nat /\
    (total ds + clock j <= clock j')%Q.
Proof.
  induction ops as [|[k|] ops IH]; intros s a j Ha Hl Hj.
  - exists [], s, j. cbn. repeat split; auto. lra.
  - cbn [run_ops]. cbv [mbind stateE_bind modify].
    destruct (IH (wait k s) a j Ha Hl ltac:(cbn; lia))
      as (ds & s' & j' & Hrun & Hlen & Hpos & Hs & Hl' & Hj' & Hsum).
    exists ds, s', j'. by repeat split.
  - cbn [run_ops]. cbv [mbind stateE_bind].
    rewrite (record_on_set _ _ _ Hl).
    match goal with
    | |- context [run_ops clock ops ?st] =>
        destruct (IH st a (S (reads s)) Ha eq_refl ltac:(cbn; lia))
          as (ds & s' & j' & Hrun & Hlen & Hpos & Hs & Hl' & Hj' & Hsum)
    end.
    rewrite Hrun. cbn [mret stateE_ret].
    pose proof (clock_monotone j (reads s) ltac:(lia)) as H1.
    pose proof (clock_monotone (reads s) (S (reads s)) ltac:(lia)) as H2.
    eexists _, s', j'. split; [reflexivity|].
    repeat split; try assumption.
    + cbn. by rewrite Hlen.
    + constructor; [lra | assumption].
    + cbn [total fold_right]. fold (total ds). lra.
Qed.

(** X2. With a monotone clock, a phase [start(); ...; stop()] on an
    Idle timer never raises, whatever [record()] calls and delays it
    contains: it returns one delta per [record()], none negative, and
    their sum never exceeds the elapsed time [stop()] returns (each
    [record()] reads the clock twice and the time between the two
    readings is in no delta). The timer is back in its initial state. *)
Theorem phase_deltas_within_elapsed (ops : list op) (s : St) :
  Idle s ->
  exists ds elapsed s',
    phase clock ops s = (Ok (ds, elapsed), s') /\
    length ds = count_records ops /\
    Forall (fun d => 0 <= d)%Q ds /\
    (total ds <= elapsed)%Q /\
    tm s' = init.
Proof.
  intros Hidle. unfold phase. cbv [mbind stateE_bind].
  rewrite (start_on_idle _ _ Hidle).
  match goal with
  | |- context [run_ops clock ops ?st] =>
      destruct (run_ops_running ops st (clock (reads s)) (S (reads s))
                  eq_refl eq_refl ltac:(cbn; lia))
        as (ds & s' & j' & Hrun & Hlen & Hpos & Hs & Hl' & Hj' & Hsum)
  end.
  rewrite Hrun, (stop_on_running _ _ _ Hs). cbn [mret stateE_ret].
  eexists _, _, _. split; [reflexivity|]. repeat split; try assumption.
  pose proof (clock_monotone (reads s) (S (reads s)) ltac:(lia)) as H1.
  pose proof (clock_monotone j' (reads s') ltac:(lia)) as H2.
  lra.
Qed.

End TimerRunsSpec.

Section TimerRunsWitnesses.
Import Timer TimerRuns.

Lemma timer_invariants_witness :
  let s := run_call seconds CRecord (run_call seconds CStart fresh_timer) in
  end_time (tm s) = None /\
  (start_time (tm s) = None <-> last_record (tm s) = None) /\
  forall a b, start_time (tm s) = Some a -> last_record (tm s) = Some b ->
    (a <= b)%Q.
Proof.
  apply (timer_invariants seconds seconds_monotone).
  do 2 apply reach_call. apply (reach_init seconds 0).
Defined.

Lemma phase_deltas_within_elapsed_witness :
  exists ds elapsed s',
    phase seconds [Wait 2; Record; Wait 1; Record] fresh_timer =
      (Ok (ds, elapsed), s') /\
    length ds = 2%nat /\
    Forall (fun d => 0 <= d)%Q ds /\
    (total ds <= elapsed)%Q /\
    tm s' = init.
Proof.
  apply (phase_deltas_within_elapsed seconds seconds_monotone
           [Wait 2; Record; Wait 1; Record] fresh_timer).
  reflexivity.
Defined.

End TimerRunsWitnesses.

(** ** Logger: references and aliasing *)

Section LoggerStoreSpec.
Import Logger LoggerStore.

Lemma append_all_steps (ls : list loc) : forall w : World,
  append_all ls w = {| objs := objs w; steps := steps w ++ ls |}.
Proof.
  induction ls as [|l ls IH]; intros w; cbn.
  - rewrite app_nil_r. by destruct w.
  - unfold append_all in IH. rewrite IH. cbn. by rewrite <- app_assoc.
Qed.

(** X3. [append] stores whatever reference it is given, without
    checking it: after appending the references [ls] to a logger,
    [list()] returns the earlier entries followed by [ls], in order, a
    step appended twice being listed twice; the store is untouched. *)
Theorem list_after_appends (ls : list loc) (w : World) :
  fst (list_ (append_all ls w)) = fst (list_ w) ++ ls /\
  length (fst (list_ (append_all ls w))) =
    (length (fst (list_ w)) + length ls)%nat /\
  objs (append_all ls w) = objs w.
Proof.
  rewrite !list_returns_steps, append_all_steps. cbn.
  repeat split. by rewrite length_app.
Qed.

(** X4. The mappings [list()] returns are the steps' own dictionaries:
    a write through one of them is what every later [list()] shows at
    each position of that step, and the other positions are as before. *)
Theorem list_mappings_are_live
    (w : World) (d : loc) (a : attrs) (key : string) (v : value) :
  objs w !! d = Some a ->
  let w' := setitem d key v w in
  fst (list_ w') = fst (list_ w) /\
  forall (i : nat) (l : loc),
    fst (list_ w) !! i = Some l ->
    read w' (fst (list_ w')) !! i =
      Some (if decide (l = d) then Some (<[key := v]> a) else objs w !! l).
Proof.
  intros Hd w'. rewrite !list_returns_steps. cbn [fst].
  split; [reflexivity|]. intros i l Hi.
  unfold read. rewrite list_lookup_fmap. cbn. rewrite Hi. cbn. f_equal.
  case_decide as Hl.
  - subst l. by rewrite lookup_alter_eq, Hd.
  - by rewrite lookup_alter_ne.
Qed.

Lemma list_mappings_are_live_witness :
  let s0 := mkLogStep 0 (3 # 10) 0 0 0 0 0 0 0 (12 # 10) in
  let w := log_all [s0] (init {| objs := ∅; steps := [] |}) in
  let w' := setitem 1%positive "loss" (VFloat 0) w in
  fst (list_ w') = fst (list_ w) /\
  forall (i : nat) (l : loc),
    fst (list_ w) !! i = Some l ->
    read w' (fst (list_ w')) !! i =
      Some (if decide (l = 1%positive)
            then Some (<["loss" := VFloat 0]> (fields s0))
            else objs w !! l).
Proof.
  intros s0 w.
  apply (list_mappings_are_live w 1%positive (fields s0) "loss" (VFloat 0)).
  vm_compute. reflexivity.
Defined.

End LoggerStoreSpec.

(** ** Config: what the constructor accepts and keeps *)

Section ArgsSpec.
Import Config Args.

Lemma init_is_copy (args : obj) :
  Config.init args = copy_attrs args assigned_fields ∅.
Proof.
  unfold Config.init, assigned_fields.
  cbv [mbind mret result_bind result_ret copy_attrs].
  repeat match goal with
         | |- context [getattr args ?f] => destruct (getattr args f); [|reflexivity]
         end.
  reflexivity.
Qed.

Lemma copy_attrs_first_missing (args : obj) (pre : list string) :
  forall (f : string) (post : list string) (self : obj),
    Forall (fun g => is_Some (args !! g)) pre ->
    args !! f = None ->
    copy_attrs args (pre ++ f :: post) self = Raise (AttributeError f).
Proof.
  induction pre as [|g pre IH]; intros f post self Hpre Hf; cbn.
  - unfold getattr. by rewrite Hf.
  - inversion Hpre as [|? ? [v Hv] Hpre']; subst.
    unfold getattr at 1. rewrite Hv. by apply IH.
Qed.

Lemma copy_attrs_all_present (args : obj) (names : list string) :
  forall self : obj,
    Forall (fun g => is_Some (args !! g)) names ->
    exists cfg, copy_attrs args names self = Ok cfg.
Proof.
  induction names as [|g names IH]; intros self Hall; cbn.
  - by exists self.
  - inversion Hall as [|? ? [v Hv] Hall']; subst.
    unfold getattr. rewrite Hv. by apply IH.
Qed.

(** X5. The constructor reads the attributes of its argument in the
    order of its assignments and stops at the first one that is missing:
    it raises [AttributeError] naming that attribute, whatever comes
    after it. *)
Theorem init_first_missing
    (args : obj) (pre : list string) (f : string) (post : list string) :
  assigned_fields = pre ++ f :: post ->
  Forall (fun g => is_Some (args !! g)) pre ->
  args !! f = None ->
  Config.init args = Raise (AttributeError f).
Proof.
  intros Hsplit Hpre Hf. rewrite init_is_copy, Hsplit.
  by apply copy_attrs_first_missing.
Qed.

Lemma init_first_missing_witness :
  Config.init (delete "lr" (delete "model" Samples.args)) =
    Raise (AttributeError "lr").
Proof.
  apply (init_first_missing _
           ["sample_mode"; "batch_size"; "fanouts"; "num_epoch"; "hid_size";
            "num_layers"; "num_head"]
           "lr"
           ["weight_decay"; "dropout"; "num_partition"; "graph_name";
            "data_dir"; "model"; "log_file"; "eval"]).
  - reflexivity.
  - repeat constructor; vm_compute; eexists; reflexivity.
  - vm_compute. reflexivity.
Defined.

(** X6. The constructor succeeds exactly when its argument has the
    sixteen attributes it reads, and the instance it builds then holds
    these sixteen, with the argument's values, and nothing else:
    whatever else the argument carries ([world_size] for one) is
    dropped. *)
Theorem init_keeps_assigned_only (args : obj) :
  (Forall (fun g => is_Some (args !! g)) assigned_fields ->
   Config.init args = Ok (filter (fun kv => kv.1 ∈ assigned_fields) args)) /\
  (forall cfg, Config.init args = Ok cfg ->
   Forall (fun g => is_Some (args !! g)) assigned_fields).
Proof.
  split.
  - intros Hall.
    destruct (copy_attrs_all_present args assigned_fields ∅ Hall) as [cfg Hcfg].
    rewrite <- init_is_copy in Hcfg. rewrite Hcfg. f_equal.
    destruct (init_assigns args cfg Hcfg) as [Hin Hout].
    apply map_eq. intros i.
    destruct (decide (i ∈ assigned_fields)) as [Hi|Hi].
    + destruct (Hin i Hi) as (v & Ha & Hc). rewrite Hc. symmetry.
      by apply map_lookup_filter_Some.
    + rewrite (Hout i Hi). symmetry.
      apply map_lookup_filter_None. right. intros v _. exact Hi.
  - intros cfg Hcfg. destruct (init_assigns args cfg Hcfg) as [Hin _].
    apply Forall_forall. intros g Hg.
    destruct (Hin g Hg) as (v & Ha & _). by exists v.
Qed.

Lemma init_keeps_assigned_only_witness :
  Config.init Samples.args =
    Ok (filter (fun kv => kv.1 ∈ assigned_fields) Samples.args).
Proof.
  apply (init_keeps_assigned_only Samples.args).
  repeat constructor; vm_compute; eexists; reflexivity.
Defined.

(** X7. Every namespace the parser of [get_args] can return has the
    attributes the constructor reads, so [get_args] does not fail after
    parsing: it returns a Config, registers that same Config as the
    current one, and the Config has every parsed option except
    [world_size]. *)
Theorem get_args_registers (args : obj) (g : Globals) :
  Forall (fun d => is_Some (args !! d)) parser_dests ->
  exists config g',
    get_args args g = (Ok config, g') /\
    get_global_config g' = (Some config, g') /\
    config !! "world_size" = None /\
    forall d, d ∈ parser_dests -> d <> "world_size" ->
      config !! d = args !! d.
Proof.
  intros Hall.
  assert (Hassigned : Forall (fun g => is_Some (args !! g)) assigned_fields).
  { apply Forall_forall. intros f Hf.
    rewrite Forall_forall in Hall. apply Hall.
    unfold assigned_fields in Hf.
    repeat (apply elem_of_cons in Hf as [-> | Hf]; [by_lookup|]).
    by apply elem_of_nil in Hf. }
  destruct (copy_attrs_all_present args assigned_fields ∅ Hassigned)
    as [config Hcfg].
  rewrite <- init_is_copy in Hcfg.
  destruct (init_assigns args config Hcfg) as [Hin Hout].
  exists config, (set_global_config (Some config) g).
  split; [|split; [|split]].
  - unfold get_args. cbv [mbind stateE_bind lift modify]. by rewrite Hcfg.
  - reflexivity.
  - apply Hout. by_lookup.
  - intros d Hd Hne.
    assert (Ha : d ∈ assigned_fields).
    { unfold parser_dests in Hd.
      repeat (apply elem_of_cons in Hd as [-> | Hd]; [by_lookup || done|]).
      by apply elem_of_nil in Hd. }
    destruct (Hin d Ha) as (v & Hargs & Hc). by rewrite Hargs, Hc.
Qed.

Lemma get_args_registers_witness :
  exists config g',
    get_args Samples.args module_init = (Ok config, g') /\
    get_global_config g' = (Some config, g') /\
    config !! "world_size" = None /\
    forall d, d ∈ parser_dests -> d <> "world_size" ->
      config !! d = Samples.args !! d.
Proof.
  apply (get_args_registers Samples.args module_init).
  repeat constructor; vm_compute; eexists; reflexivity.
Defined.

End ArgsSpec.

(** ** Dataset: a transfer that fails part-way *)

Section DatasetFailureSpec.
Import Dataset.
Context `{Backend}.

(** X8. [to(device)] is not all-or-nothing. The exception of the first
    transfer that fails is the one it raises; the tensors before that
    one (in the order label, train_mask, val_mask, test_mask) have
    already been replaced by their moved versions and stay replaced, the
    failing one and those after it are as before. *)
Theorem to_stops_at_first_failure (device : Device) (d : Dataset) (e : exn) :
  (tensor_to (label d) device = Raise e ->
     to device d = (Raise e, d)) /\
  (forall l,
     tensor_to (label d) device = Ok l ->
     tensor_to (train_mask d) device = Raise e ->
     to device d = (Raise e, set_label l d)) /\
  (forall l tr,
     tensor_to (label d) device = Ok l ->
     tensor_to (train_mask d) device = Ok tr ->
     tensor_to (val_mask d) device = Raise e ->
     to device d = (Raise e, set_train_mask tr (set_label l d))) /\
  (forall l tr va,
     tensor_to (label d) device = Ok l ->
     tensor_to (train_mask d) device = Ok tr ->
     tensor_to (val_mask d) device = Ok va ->
     tensor_to (test_mask d) device = Raise e ->
     to device d =
       (Raise e, set_val_mask va (set_train_mask tr (set_label l d)))).
Proof.
  repeat split.
  - intros Hl. cbv [to mbind stateE_bind get lift modify]. by rewrite Hl.
  - intros l Hl Htr. cbv [to mbind stateE_bind get lift modify].
    rewrite Hl. cbn. by rewrite Htr.
  - intros l tr Hl Htr Hva. cbv [to mbind stateE_bind get lift modify].
    rewrite Hl. cbn. rewrite Htr. cbn. by rewrite Hva.
  - intros l tr va Hl Htr Hva Hte.
    cbv [to mbind stateE_bind get lift modify].
    rewrite Hl. cbn. rewrite Htr. cbn. rewrite Hva. cbn. by rewrite Hte.
Qed.

End DatasetFailureSpec.

(** ** Metadata builders: the records they build *)

Section MetaRecordsSpec.
Import Config Dataset Host Meta.
Context `{Backend}.

Ltac invert_builder Hrun :=
  cbv [attr getattr io] in Hrun;
  repeat match type of Hrun with
         | context [?c !! ?f] =>
             is_var c; destruct (c !! f) eqn:?;
             [|cbv [mbind IO_bind] in Hrun; cbn in Hrun; discriminate Hrun]
         end.

(** X9. [get_train_meta] needs no probe and no dataset: for every
    constructed Config it returns, without printing, the record of
    exactly three entries [weight_decay], [learning_rate] (the Config's
    [lr] under another name) and [dropout]. *)
Theorem train_meta_record (args config : obj) :
  Config.init args = Ok config ->
  exists wd lr dr,
    args !! "weight_decay" = Some wd /\
    args !! "lr" = Some lr /\
    args !! "dropout" = Some dr /\
    get_train_meta config =
      mkIO (Ok (<["dropout" := dr]>
               (<["learning_rate" := lr]>
               (<["weight_decay" := wd]> ∅)))) [].
Proof.
  intros Hinit. destruct (init_assigns _ _ Hinit) as [Hin _].
  destruct (Hin "weight_decay" ltac:(by_lookup)) as (wd & Ha1 & Hc1).
  destruct (Hin "lr" ltac:(by_lookup)) as (lr & Ha2 & Hc2).
  destruct (Hin "dropout" ltac:(by_lookup)) as (dr & Ha3 & Hc3).
  exists wd, lr, dr. repeat split; try assumption.
  unfold get_train_meta.
  by rewrite (attr_found _ _ _ Hc1), (attr_found _ _ _ Hc2),
    (attr_found _ _ _ Hc3).
Qed.


(** X11. Whenever [get_minibatch_meta] returns a record, so does
    [get_full_meta] on the same inputs, printing the same: the record
    without [batch_size] and [fanouts] and with [train_mode] set to
    "full". *)
Theorem full_from_minibatch
    (h : Host) (config : obj) (data : Dataset)
    (r : obj) (lines : list string) :
  get_minibatch_meta h config data = mkIO (Ok r) lines ->
  get_full_meta h config data =
    mkIO (Ok (<["train_mode" := VStr "full"]>
             (delete "batch_size" (delete "fanouts" r)))) lines.
Proof.
  intros Hrun. unfold get_full_meta. unfold get_minibatch_meta in Hrun.
  destruct (get_cpu_model h) as [[model|e] cpu_lines] eqn:Hcpu.
  2: { invert_builder Hrun. cbv [mbind IO_bind] in Hrun. cbn in Hrun.
       discriminate Hrun. }
  invert_builder Hrun.
  cbv [mbind mret IO_bind IO_ret] in Hrun. cbn in Hrun.
  injection Hrun as <- <-.
  cbv [attr getattr io]. rewrite ?Heqo, ?Heqo0, ?Heqo1, ?Heqo2, ?Heqo3.
  cbv [mbind mret IO_bind IO_ret]. cbn.
  reflexivity.
Qed.

End MetaRecordsSpec.

Section MetaRecordsOnSamples.
Import Config Dataset Host Meta Samples.

Lemma to_stops_at_first_failure_witness :
  let flaky : Backend :=
    {| Tensor := list Z * nat; Device := nat; Graph := Z * list (Z * Z);
       tensor_to := fun t d =>
         if (length (fst t) <=? 2)%nat
         then Raise (DeviceError "out of memory") else Ok (fst t, d);
       num_nodes := fun g => fst g;
       num_edges := fun g => Z.of_nat (length (snd g)) |} in
  let d := @mkDataset flaky ring None
             ([0; 1; 0; 1; 0; 1; 0; 1; 0; 1]%Z, 0%nat)
             ([0; 1; 2; 3; 4; 5]%Z, 0%nat)
             ([6; 7]%Z, 0%nat) ([8; 9]%Z, 0%nat) 2 8 in
  @to flaky 1%nat d =
    (Raise (DeviceError "out of memory"),
     @mkDataset flaky ring None
       ([0; 1; 0; 1; 0; 1; 0; 1; 0; 1]%Z, 1%nat)
       ([0; 1; 2; 3; 4; 5]%Z, 1%nat)
       ([6; 7]%Z, 0%nat) ([8; 9]%Z, 0%nat) 2 8).
Proof.
  intros flaky d.
  destruct (to_stops_at_first_failure (H := flaky) 1%nat d
              (DeviceError "out of memory")) as (_ & _ & Hthird & _).
  apply (Hthird ([0; 1; 0; 1; 0; 1; 0; 1; 0; 1]%Z, 1%nat)
           ([0; 1; 2; 3; 4; 5]%Z, 1%nat)); reflexivity.
Defined.

Lemma train_meta_record_witness :
  exists wd lr dr,
    args !! "weight_decay" = Some wd /\
    args !! "lr" = Some lr /\
    args !! "dropout" = Some dr /\
    get_train_meta config =
      mkIO (Ok (<["dropout" := dr]>
               (<["learning_rate" := lr]>
               (<["weight_decay" := wd]> ∅)))) [].
Proof.
  apply (train_meta_record args config). vm_compute. reflexivity.
Defined.


Lemma full_from_minibatch_witness :
  get_full_meta host_cpu_only config data =
    mkIO (Ok (<["train_mode" := VStr "full"]>
             (delete "batch_size" (delete "fanouts"
                (match res (get_minibatch_meta host_cpu_only config data) with
                 | Ok r => r
                 | Raise _ => ∅
                 end))))) [].
Proof.
  apply (full_from_minibatch host_cpu_only config data).
  vm_compute. reflexivity.
Defined.

End MetaRecordsOnSamples.

(** ** Splitting text at a character *)

Section SplitSpec.
Import Builtin.

Lemma split_not_nil (c : ascii) (s : string) : PyStr.split c s <> [].
Proof.
  induction s as [|b s IH]; cbn; [done|].
  destruct (Ascii.eqb b c); [done|]. by destruct (PyStr.split c s).
Qed.

Lemma split_without (c : ascii) (s : string) :
  has_char c s = false -> PyStr.split c s = [s].
Proof.
  induction s as [|b s IH]; cbn; [done|].
  destruct (Ascii.eqb b c); [done|]. intros Hs. by rewrite (IH Hs).
Qed.

Lemma split_at_first (c : ascii) (n rest : string) :
  has_char c n = false ->
  PyStr.split c (n +:+ String c rest) = n :: PyStr.split c rest.
Proof.
  induction n as [|b n IH].
  - intros _. change (EmptyString +:+ String c rest) with (String c rest).
    cbn [PyStr.split]. by rewrite Ascii.eqb_refl.
  - change (String b n +:+ String c rest) with (String b (n +:+ String c rest)).
    cbn [PyStr.split has_char].
    destruct (Ascii.eqb b c); [done|]. intros Hn. by rewrite (IH Hn).
Qed.

Lemma split_length (c : ascii) (s : string) :
  length (PyStr.split c s) = S (count_char c s).
Proof.
  induction s as [|b s IH]; cbn; [done|].
  destruct (Ascii.eqb b c); cbn; [by rewrite IH|].
  pose proof (split_not_nil c s). by destruct (PyStr.split c s).
Qed.

Lemma split_parts_without (c : ascii) (s : string) :
  Forall (fun p => has_char c p = false) (PyStr.split c s).
Proof.
  induction s as [|b s IH]; cbn; [by repeat constructor|].
  destruct (Ascii.eqb b c) eqn:E; [by constructor|].
  destruct (PyStr.split c s) as [|w ws]; [by repeat constructor; cbn; rewrite E|].
  inversion IH; subst. constructor; [cbn; by rewrite E | done].
Qed.

Lemma join_cons (c : ascii) (p : string) (ps : list string) :
  ps <> [] -> join c (p :: ps) = p +:+ String c (join c ps).
Proof. by destruct ps. Qed.

Lemma join_split (c : ascii) (s : string) : join c (PyStr.split c s) = s.
Proof.
  induction s as [|b s IH]; [done|].
  pose proof (split_not_nil c s) as Hne. cbn [PyStr.split].
  destruct (Ascii.eqb_spec b c) as [->|_].
  - by rewrite (join_cons _ _ _ Hne), IH.
  - destruct (PyStr.split c s) as [|w ws]; [done|].
    destruct ws as [|w' ws].
    + cbn in IH. cbn. by rewrite IH.
    + rewrite join_cons by done. rewrite join_cons in IH by done.
      by rewrite <- IH.
Qed.

Lemma split_join (c : ascii) (parts : list string) :
  parts <> [] ->
  Forall (fun p => has_char c p = false) parts ->
  PyStr.split c (join c parts) = parts.
Proof.
  induction parts as [|p ps IH]; [done|]. intros _ Hall.
  inversion Hall as [|? ? Hp Hps]; subst.
  destruct ps as [|q ps]; [by apply split_without|].
  rewrite join_cons by done.
  rewrite (split_at_first c p _ Hp). f_equal. by apply IH.
Qed.

Lemma contains_char (c : ascii) (s : string) :
  contains (String c EmptyString) s = has_char c s.
Proof.
  unfold contains. induction s as [|b s IH]; cbn; [done|].
  destruct (ascii_dec c b) as [->|Hne].
  - rewrite Ascii.eqb_refl. by destruct s.
  - destruct (Ascii.eqb_spec b c) as [->|_]; [done|].
    rewrite <- IH. by destruct (String.index 0 (String c "") s).
Qed.

End SplitSpec.

(** ** NUMA helpers *)

Section NumaSpec.
Import Builtin Numa.

Variable numa_info : gmap Z (list Z).

(** X12. [get_load_compute_cores] raises [KeyError] for a node that
    [numa_info] does not list. For a listed node it cuts the node's
    thread list in two without losing or reordering a thread: the loader
    cores followed by the compute cores are the list itself, the loader
    part has half of the threads rounded down, and the compute part has
    as many or one more. Threads listed once are in one part only. *)
Theorem load_compute_cores_partition (numa_id : Z) :
  match numa_info !! numa_id with
  | None => get_load_compute_cores numa_info numa_id = Throws (KeyError numa_id)
  | Some all_threads =>
      exists loader_cores compute_cores,
        get_load_compute_cores numa_info numa_id =
          Returns (loader_cores, compute_cores) /\
        loader_cores ++ compute_cores = all_threads /\
        length loader_cores = (length all_threads / 2)%nat /\
        (length loader_cores <= length compute_cores <= S (length loader_cores))%nat /\
        (NoDup all_threads ->
         forall t, t ∈ loader_cores -> t ∉ compute_cores)
  end.
Proof.
  unfold get_load_compute_cores.
  destruct (numa_info !! numa_id) as [all_threads|]; [|reflexivity].
  eexists _, _. split; [reflexivity|].
  pose proof (Nat.div_mod_eq (length all_threads) 2) as Hdiv.
  pose proof (Nat.mod_upper_bound (length all_threads) 2 ltac:(lia)) as Hmod.
  split; [apply take_drop|].
  split; [rewrite length_take; lia|].
  split; [rewrite length_take, length_drop; lia|].
  intros Hnd t Hl Hc.
  rewrite <- (take_drop (length all_threads / 2) all_threads) in Hnd.
  apply NoDup_app in Hnd as (_ & Hdisj & _). by apply (Hdisj t).
Qed.

End NumaSpec.

(** ** Cache sizes and fanouts given as text *)

Section SizesSpec.
Import Builtin Sizes.
Context `{Conversions}.

Lemma has_char_app (c : ascii) (a b : string) :
  has_char c (a +:+ b) = has_char c a || has_char c b.
Proof.
  induction a as [|x a IH]; [done|].
  change (String x a +:+ b) with (String x (a +:+ b)). cbn [has_char].
  by destruct (Ascii.eqb x c).
Qed.

Lemma has_char_unit (c : ascii) (a b : string) :
  has_char c (a +:+ String c b) = true.
Proof.
  rewrite has_char_app. cbn [has_char]. rewrite Ascii.eqb_refl.
  by destruct (has_char c a).
Qed.

Lemma has_char_other (c d : ascii) (a b : string) :
  c <> d -> has_char c a = false -> has_char c b = false ->
  has_char c (a +:+ String d b) = false.
Proof.
  intros Hne Ha Hb. rewrite has_char_app, Ha. cbn [has_char orb].
  destruct (Ascii.eqb_spec d c) as [->|_]; [done | exact Hb].
Qed.

Lemma count_char_app (c : ascii) (a b : string) :
  count_char c (a +:+ b) = (count_char c a + count_char c b)%nat.
Proof.
  induction a as [|x a IH]; [done|].
  change (String x a +:+ b) with (String x (a +:+ b)). cbn [count_char].
  rewrite IH. lia.
Qed.

Lemma count_char_unit (c : ascii) (b : string) :
  count_char c (String c b) = S (count_char c b).
Proof. cbn [count_char]. by rewrite Ascii.eqb_refl. Qed.

Lemma unpack_pair_long (parts : list string) :
  (3 <= length parts)%nat ->
  unpack_pair parts = Throws (ValueError unpack_too_many).
Proof. destruct parts as [|a [|b [|c parts]]]; cbn; by try lia. Qed.

Lemma split_single (c : ascii) (n rest : string) :
  has_char c n = false -> has_char c rest = false ->
  unpack_pair (PyStr.split c (n +:+ String c rest)) = Returns (n, rest).
Proof.
  intros Hn Hr. by rewrite (split_at_first c n rest Hn), (split_without c rest Hr).
Qed.

Lemma split_repeated (c : ascii) (a b d : string) :
  unpack_pair (PyStr.split c (a +:+ String c (b +:+ String c d))) =
    Throws (ValueError unpack_too_many).
Proof.
  apply unpack_pair_long. rewrite split_length, count_char_app,
    count_char_unit, count_char_app, count_char_unit. lia.
Qed.

Ltac no_char :=
  first [ assumption | apply has_char_other; [done | no_char | no_char] ].

Ltac pick_unit :=
  unfold str_to_bytes; rewrite !contains_char;
  repeat first
    [ rewrite has_char_unit
    | match goal with
      | |- context [has_char ?c (?a +:+ String ?d ?b)] =>
          replace (has_char c (a +:+ String d b)) with false
            by (symmetry; no_char)
      end ];
  cbn [mbind answer_bind].

(** X13. A size with exactly one unit letter is the number before the
    letter times the unit: whatever follows the letter is ignored and
    never looked at ("4GB" is read like "4G"), and [float] alone decides
    whether the text before it is a number. "G" is looked for first,
    then "M", then "K". *)
Theorem str_to_bytes_single_unit (n rest : string) :
  (has_char "G" n = false -> has_char "G" rest = false ->
   str_to_bytes (n +:+ String "G" rest) =
     (f ← float_of_str n; mret (Some (fmul (fmul (fmul f 1024) 1024) 1024)))) /\
  (has_char "G" n = false -> has_char "G" rest = false ->
   has_char "M" n = false -> has_char "M" rest = false ->
   str_to_bytes (n +:+ String "M" rest) =
     (f ← float_of_str n; mret (Some (fmul (fmul f 1024) 1024)))) /\
  (has_char "G" n = false -> has_char "G" rest = false ->
   has_char "M" n = false -> has_char "M" rest = false ->
   has_char "K" n = false -> has_char "K" rest = false ->
   str_to_bytes (n +:+ String "K" rest) =
     (f ← float_of_str n; mret (Some (fmul f 1024)))).
Proof.
  repeat split.
  - intros Gn Gr. pick_unit. by rewrite (split_single _ _ _ Gn Gr).
  - intros Gn Gr Mn Mr. pick_unit. by rewrite (split_single _ _ _ Mn Mr).
  - intros Gn Gr Mn Mr Kn Kr. pick_unit.
    by rewrite (split_single _ _ _ Kn Kr).
Qed.

(** X14. A size in which the unit letter that is picked occurs twice
    or more is refused with the [ValueError] of the tuple unpacking,
    before [float] sees anything. *)
Theorem str_to_bytes_repeated_unit (a b d : string) :
  str_to_bytes (a +:+ String "G" (b +:+ String "G" d)) =
    Throws (ValueError unpack_too_many) /\
  (has_char "G" a = false -> has_char "G" b = false ->
   has_char "G" d = false ->
   str_to_bytes (a +:+ String "M" (b +:+ String "M" d)) =
     Throws (ValueError unpack_too_many)) /\
  (has_char "G" a = false -> has_char "G" b = false ->
   has_char "G" d = false ->
   has_char "M" a = false -> has_char "M" b = false ->
   has_char "M" d = false ->
   str_to_bytes (a +:+ String "K" (b +:+ String "K" d)) =
     Throws (ValueError unpack_too_many)).
Proof.
  repeat split.
  - pick_unit. by rewrite split_repeated.
  - intros Ga Gb Gd. pick_unit. by rewrite split_repeated.
  - intros Ga Gb Gd Ma Mb Md. pick_unit. by rewrite split_repeated.
Qed.

(** X15. A size without an upper-case "G", "M" or "K" (a bare number,
    a lower-case unit, the empty text) is not an error: the function
    returns [None], and [float] is never called. *)
Theorem str_to_bytes_no_unit (s : string) :
  has_char "G" s = false -> has_char "M" s = false ->
  has_char "K" s = false ->
  str_to_bytes s = Returns None.
Proof.
  intros HG HM HK. unfold str_to_bytes. by rewrite !contains_char, HG, HM, HK.
Qed.

Lemma comprehension_length {A B} (f : A -> answer B) (xs : list A) (ys : list B) :
  comprehension f xs = Returns ys -> length ys = length xs.
Proof.
  revert ys. induction xs as [|x xs IH]; intros ys; cbn.
  - by intros [= <-].
  - destruct (f x) as [y|e]; cbn; [|done].
    destruct (comprehension f xs) as [ys'|e]; cbn; [|done].
    intros [= <-]. cbn. by rewrite (IH ys').
Qed.

Lemma comprehension_all {A B} (f : A -> answer B) (g : B -> A) (ys : list B) :
  Forall (fun y => f (g y) = Returns y) ys ->
  comprehension f (map g ys) = Returns ys.
Proof.
  induction 1 as [|y ys Hy _ IH]; cbn; [done|]. by rewrite Hy, IH.
Qed.

Lemma comprehension_first_failure {A B}
    (f : A -> answer B) (pre : list A) (bad : A) (post : list A) (e : error) :
  Forall (fun x => exists y, f x = Returns y) pre ->
  f bad = Throws e ->
  comprehension f (pre ++ bad :: post) = Throws e.
Proof.
  induction 1 as [|x pre [y Hy] _ IH]; cbn; intros Hbad.
  - by rewrite Hbad.
  - by rewrite Hy, (IH Hbad).
Qed.

(** X16. When the [--fanouts] converter returns a list, the list has
    one entry per comma of the text plus one; it is never empty. *)
Theorem parse_fanouts_length (fanouts : string) (l : list Z) :
  parse_fanouts fanouts = Returns l ->
  length l = S (count_char "," fanouts) /\ l <> [].
Proof.
  intros Hp. apply comprehension_length in Hp.
  rewrite split_length in Hp. split; [done|]. by destruct l.
Qed.

Section WithStr.

(** [str(n)] for an integer [n]. *)
Variable str_of_int : Z -> string.

(** X17. The [--fanouts] converter undoes the comma-joined printing of
    a list of integers: for a non-empty list whose entries [int] reads
    back from their [str] (which holds no comma), converting
    [",".join(map(str, l))] returns [l]. *)
Theorem parse_fanouts_roundtrip (l : list Z) :
  l <> [] ->
  Forall (fun n => int_of_str (str_of_int n) = Returns n /\
                   has_char "," (str_of_int n) = false) l ->
  parse_fanouts (join "," (map str_of_int l)) = Returns l.
Proof.
  intros Hne Hall. unfold parse_fanouts.
  rewrite split_join.
  - apply comprehension_all. eapply Forall_impl; [exact Hall|]. by intros n [? _].
  - by destruct l.
  - apply Forall_fmap. eapply Forall_impl; [exact Hall|]. by intros n [_ ?].
Qed.

End WithStr.

(** X18. The converter stops at the first piece [int] refuses and
    raises that error, whatever the later pieces are: an empty piece (a
    trailing or doubled comma) or a non-number anywhere makes the whole
    option invalid. *)
Theorem parse_fanouts_first_failure
    (pre : list string) (bad : string) (post : list string) (e : error) :
  Forall (fun p => has_char "," p = false /\
                   exists n, int_of_str p = Returns n) pre ->
  has_char "," bad = false ->
  Forall (fun p => has_char "," p = false) post ->
  int_of_str bad = Throws e ->
  parse_fanouts (join "," (pre ++ bad :: post)) = Throws e.
Proof.
  intros Hpre Hbad Hpost He. unfold parse_fanouts.
  rewrite split_join.
  - apply comprehension_first_failure; [|exact He].
    eapply Forall_impl; [exact Hpre|]. by intros p [_ ?].
  - by destruct pre.
  - apply Forall_app. split.
    + eapply Forall_impl; [exact Hpre|]. by intros p [? _].
    + by constructor.
Qed.

End SizesSpec.

Section SizesOnSamples.
Import Builtin Sizes SampleConversions.

Lemma str_to_bytes_single_unit_witness :
  str_to_bytes "4GB" = Returns (Some (inject_Z 4 * 1024 * 1024 * 1024)%Q) /\
  str_to_bytes "512MiB" = Returns (Some (inject_Z 512 * 1024 * 1024)%Q).
Proof.
  split.
  - destruct (str_to_bytes_single_unit (H := conversions) "4" "B")
      as (HG & _ & _).
    exact (HG eq_refl eq_refl).
  - destruct (str_to_bytes_single_unit (H := conversions) "512" "iB")
      as (_ & HM & _).
    exact (HM eq_refl eq_refl eq_refl eq_refl).
Defined.

Lemma str_to_bytes_repeated_unit_witness :
  str_to_bytes "1MM" = Throws (ValueError unpack_too_many).
Proof.
  destruct (str_to_bytes_repeated_unit (H := conversions) "1" "" "")
    as (_ & HM & _).
  exact (HM eq_refl eq_refl eq_refl).
Defined.

Lemma str_to_bytes_no_unit_witness :
  str_to_bytes "4g" = Returns None.
Proof.
  apply (str_to_bytes_no_unit (H := conversions) "4g"); reflexivity.
Defined.

Lemma parse_fanouts_length_witness :
  length [15; 10; 5]%Z = S (count_char "," "15,10,5") /\ [15; 10; 5]%Z <> [].
Proof.
  apply (parse_fanouts_length (H := conversions) "15,10,5" [15; 10; 5]%Z).
  reflexivity.
Defined.

Lemma parse_fanouts_roundtrip_witness :
  parse_fanouts (join "," (map str_of_int [15; 10; 5]%Z)) =
    Returns [15; 10; 5]%Z.
Proof.
  apply (parse_fanouts_roundtrip (H := conversions) str_of_int [15; 10; 5]%Z).
  - discriminate.
  - repeat constructor.
Defined.

Lemma parse_fanouts_first_failure_witness :
  parse_fanouts (join "," (["15"; "15"] ++ "" :: [])) =
    Throws (ValueError "invalid literal: ").
Proof.
  apply (parse_fanouts_first_failure (H := conversions) ["15"; "15"] "" []).
  - repeat constructor; by eexists.
  - reflexivity.
  - constructor.
  - reflexivity.
Defined.

End SizesOnSamples.

(** ** What the probes read out of the tools' output *)

Section StripSpec.
Import Builtin Text PyStr.

Lemma app_empty_r (s : string) : s +:+ "" = s.
Proof.
  induction s as [|c s IH]; [done|].
  change (String c s +:+ "") with (String c (s +:+ "")). by rewrite IH.
Qed.

Lemma app_assoc_str (a b c : string) : (a +:+ b) +:+ c = a +:+ (b +:+ c).
Proof.
  induction a as [|x a IH]; [done|].
  change (String x a +:+ b) with (String x (a +:+ b)).
  change (String x (a +:+ b) +:+ c) with (String x ((a +:+ b) +:+ c)).
  by rewrite IH.
Qed.

Lemma rev_app_spec (s1 : string) : forall s2 : string,
  String.rev_app s1 s2 = String.rev s1 +:+ s2.
Proof.
  unfold String.rev. induction s1 as [|a s1 IH]; intros s2; [done|].
  cbn [String.rev_app]. rewrite (IH (String a s2)), (IH (String a "")).
  by rewrite app_assoc_str.
Qed.

Lemma rev_cons (c : ascii) (s : string) :
  String.rev (String c s) = String.rev s +:+ String c "".
Proof. unfold String.rev at 1. cbn [String.rev_app]. apply rev_app_spec. Qed.

Lemma rev_append (a b : string) :
  String.rev (a +:+ b) = String.rev b +:+ String.rev a.
Proof.
  induction a as [|x a IH].
  - change ("" +:+ b) with b. change (String.rev "") with "".
    by rewrite app_empty_r.
  - change (String x a +:+ b) with (String x (a +:+ b)).
    by rewrite !rev_cons, IH, app_assoc_str.
Qed.

Lemma rev_rev (s : string) : String.rev (String.rev s) = s.
Proof.
  induction s as [|c s IH]; [done|].
  rewrite rev_cons, rev_append, IH. reflexivity.
Qed.

Lemma starts_clean_app (ws : ascii -> bool) (a b : string) :
  starts_clean ws a = true -> starts_clean ws (a +:+ b) = true.
Proof. by destruct a. Qed.

Lemma ends_clean_app (ws : ascii -> bool) (a b : string) :
  ends_clean ws b = true -> ends_clean ws (a +:+ b) = true.
Proof. unfold ends_clean. rewrite rev_append. apply starts_clean_app. Qed.

Lemma lstrip_clean (ws : ascii -> bool) (s : string) :
  starts_clean ws s = true -> lstrip_with ws s = s.
Proof. destruct s as [|c s]; cbn; [done|]. by destruct (ws c). Qed.

Lemma lstrip_app_clean (ws : ascii -> bool) (a b : string) :
  starts_clean ws b = true ->
  lstrip_with ws (a +:+ b) = lstrip_with ws a +:+ b.
Proof.
  intros Hb. induction a as [|x a IH].
  - by apply lstrip_clean.
  - change (String x a +:+ b) with (String x (a +:+ b)). cbn [lstrip_with].
    by destruct (ws x).
Qed.

Lemma lstrip_all_space (ws : ascii -> bool) (s : string) :
  all_space ws s = true -> lstrip_with ws s = "".
Proof.
  induction s as [|c s IH]; cbn; [done|].
  destruct (ws c); cbn; [exact IH | done].
Qed.

Lemma rstrip_app_clean (ws : ascii -> bool) (a b : string) :
  ends_clean ws a = true ->
  rstrip_with ws (a +:+ b) = a +:+ rstrip_with ws b.
Proof.
  intros Ha. unfold rstrip_with.
  by rewrite rev_append, (lstrip_app_clean ws _ _ Ha), rev_append, rev_rev.
Qed.

Lemma lstrip_keeps_last (ws : ascii -> bool) (c : ascii) (u : string) :
  lstrip_with ws (u +:+ String c "") = "" \/
  exists v, lstrip_with ws (u +:+ String c "") = v +:+ String c "".
Proof.
  induction u as [|x u IH].
  - change ("" +:+ String c "") with (String c ""). cbn.
    destruct (ws c); [by left | right; by exists ""].
  - change (String x u +:+ String c "") with (String x (u +:+ String c "")).
    cbn [lstrip_with]. destruct (ws x); [exact IH|].
    right. by exists (String x u).
Qed.

Lemma rstrip_line_end (ws : ascii -> bool) (t : string) :
  line_end t = true -> line_end (rstrip_with ws t) = true.
Proof.
  destruct t as [|c t]; [done|]. cbn [line_end]. intros Hc.
  unfold rstrip_with. rewrite rev_cons.
  destruct (lstrip_keeps_last ws c (String.rev t)) as [-> | [v ->]]; [done|].
  rewrite rev_append. exact Hc.
Qed.

Lemma starts_clean_join (ws : ascii -> bool) (c : ascii) (p : string) (ps : list string) :
  starts_clean ws p = true -> starts_clean ws (join c (p :: ps)) = true.
Proof.
  intros Hp. destruct ps; [exact Hp|]. rewrite join_cons by done.
  by apply starts_clean_app.
Qed.

Lemma ends_clean_join (ws : ascii -> bool) (c : ascii) (ps : list string) :
  ends_clean ws (List.last ps "") = true -> ends_clean ws (join c ps) = true.
Proof.
  induction ps as [|p ps IH]; [done|]. destruct ps as [|q ps]; [done|].
  intros Hl. rewrite join_cons by done.
  change (String c (join c (q :: ps)))
    with (String c "" +:+ join c (q :: ps)).
  rewrite <- app_assoc_str. apply ends_clean_app. by apply IH.
Qed.

Lemma hd_split_line (name t : string) :
  has_char newline name = false -> line_end t = true ->
  hd EmptyString (split newline (name +:+ t)) = name.
Proof.
  intros Hn Ht. destruct t as [|c t].
  - rewrite app_empty_r. by rewrite (split_without _ _ Hn).
  - cbn [line_end] in Ht. apply Ascii.eqb_eq in Ht as ->.
    by rewrite (split_at_first _ _ _ Hn).
Qed.

Lemma drop_app_length (a b : string) (k : nat) :
  drop (String.length a + k) (a +:+ b) = drop k b.
Proof. induction a as [|x a IH]; [done | exact IH]. Qed.

End StripSpec.

Section ProbeTextSpec.
Import Builtin Text Host.

(** X19. When [nvidia-smi] exits with status zero the GPU probe prints
    nothing and returns the lines of the trimmed output: at least one
    entry, no entry with a newline in it, and the entries joined by
    newlines are the trimmed output again. *)
Theorem gpu_probe_lines (h : Host) (so se : string) :
  nvidia_smi h = Exited 0 so se ->
  exists gpus,
    get_cuda_gpu_model h = mkIO (Ok gpus) [] /\
    gpus <> [] /\
    Forall (fun g => has_char PyStr.newline g = false) gpus /\
    join PyStr.newline gpus = PyStr.strip so.
Proof.
  intros Hh. eexists. split; [by apply (gpu_probe_zero h so se)|].
  split; [apply split_not_nil|].
  split; [apply split_parts_without | apply join_split].
Qed.

(** X20. The GPU probe reads back a list of model names printed one
    per line: if [nvidia-smi] exits with status zero after writing each
    name followed by a newline, no name holding a newline, the first not
    beginning and the last not ending with whitespace, the probe returns
    exactly these names, in order. *)
Theorem gpu_probe_reads_names (h : Host) (names : list string) (se : string) :
  nvidia_smi h =
    Exited 0 (join PyStr.newline names +:+ String PyStr.newline "") se ->
  Forall (fun g => has_char PyStr.newline g = false) names ->
  starts_clean PyStr.isspace (hd EmptyString names) = true ->
  ends_clean PyStr.isspace (List.last names EmptyString) = true ->
  get_cuda_gpu_model h = mkIO (Ok names) [].
Proof.
  intros Hh Hnl Hfirst Hlast.
  destruct names as [|p ps]; [done|]. cbn [hd] in Hfirst.
  rewrite (gpu_probe_zero h _ _ Hh). do 2 f_equal.
  unfold PyStr.strip.
  rewrite lstrip_clean
    by (apply starts_clean_app; by apply starts_clean_join).
  rewrite rstrip_app_clean by (by apply ends_clean_join).
  change (PyStr.rstrip_with PyStr.isspace (String PyStr.newline "")) with "".
  rewrite app_empty_r. by apply split_join.
Qed.

(** X21. The CPU probe returns the model name of the inventory: if
    [lscpu] exits with status zero and its trimmed output has its first
    "Model name:" followed by whitespace, then a name without newline
    that neither begins nor ends with whitespace, then the end of the
    line, the probe returns that name and prints nothing. *)
Theorem cpu_probe_reads_model_name
    (h : Host) (text se pre pad name tail : string) :
  sh_lscpu h = Exited 0 text se ->
  PyStr.bytes_strip text = pre +:+ "Model name:" +:+ pad +:+ name +:+ tail ->
  PyStr.find "Model name:" (PyStr.bytes_strip text) =
    Z.of_nat (String.length pre) ->
  all_space PyStr.isspace pad = true ->
  starts_clean PyStr.isspace name = true ->
  ends_clean PyStr.isspace name = true ->
  has_char PyStr.newline name = false ->
  line_end tail = true ->
  get_cpu_model h = mkIO (Ok name) [].
Proof.
  intros Hh Hret Hfind Hpad Hs He Hnl Htail.
  unfold get_cpu_model, check_output. rewrite Hh. cbn [subprocess_run].
  cbv [mbind mret result_bind IO_bind IO_ret io].
  cbn [returncode stdout res out Z.eqb app].
  unfold decode. rewrite Hfind, Hret. do 2 f_equal.
  unfold PyStr.slice_from.
  destruct (Z.ltb_spec (Z.of_nat (String.length pre) + 11) 0) as [Hneg|_]; [lia|].
  replace (Z.to_nat (Z.of_nat (String.length pre) + 11))
    with (String.length pre + 11)%nat by lia.
  rewrite drop_app_length.
  change (PyStr.drop 11 ("Model name:" +:+ pad +:+ name +:+ tail))
    with (pad +:+ name +:+ tail).
  unfold PyStr.strip.
  rewrite lstrip_app_clean by (by apply starts_clean_app).
  rewrite (lstrip_all_space _ _ Hpad). change ("" +:+ ?x) with x.
  rewrite (rstrip_app_clean _ _ _ He).
  apply (hd_split_line _ _ Hnl). by apply rstrip_line_end.
Qed.

End ProbeTextSpec.

Section ProbeTextOnSamples.
Import Builtin Text Host Samples.

Lemma gpu_probe_lines_witness :
  exists gpus,
    get_cuda_gpu_model host_without_lscpu = mkIO (Ok gpus) [] /\
    gpus <> [] /\
    Forall (fun g => has_char PyStr.newline g = false) gpus /\
    join PyStr.newline gpus = PyStr.strip ("Example GPU" +:+ nl).
Proof.
  apply (gpu_probe_lines host_without_lscpu ("Example GPU" +:+ nl) "").
  reflexivity.
Defined.

Lemma gpu_probe_reads_names_witness :
  get_cuda_gpu_model
    {| sh_lscpu := NotFound;
       nvidia_smi :=
         Exited 0 (join PyStr.newline ["GPU A"; "GPU B"] +:+ nl) "" |} =
    mkIO (Ok ["GPU A"; "GPU B"]) [].
Proof.
  apply (gpu_probe_reads_names _ ["GPU A"; "GPU B"] ""); try reflexivity.
  repeat constructor.
Defined.

Lemma cpu_probe_reads_model_name_witness :
  get_cpu_model host_cpu_only = mkIO (Ok "Example CPU @ 2.00GHz") [].
Proof.
  apply (cpu_probe_reads_model_name host_cpu_only
           ("Architecture: x86_64" +:+ nl +:+
            "Model name:   Example CPU @ 2.00GHz" +:+ nl +:+
            "Thread(s) per core: 2" +:+ nl) ""
           ("Architecture: x86_64" +:+ nl) "   " "Example CPU @ 2.00GHz"
           (nl +:+ "Thread(s) per core: 2"));
    reflexivity.
Defined.

End ProbeTextOnSamples.

Section NumaOnSamples.
Import Builtin Numa.

Lemma load_compute_cores_partition_witness :
  exists loader_cores compute_cores,
    get_load_compute_cores {[ 0%Z := [0; 1; 2; 3; 4]%Z ]} 0 =
      Returns (loader_cores, compute_cores) /\
    loader_cores ++ compute_cores = [0; 1; 2; 3; 4]%Z /\
    length loader_cores = (length [0; 1; 2; 3; 4]%Z / 2)%nat /\
    (length loader_cores <= length compute_cores <= S (length loader_cores))%nat /\
    (NoDup [0; 1; 2; 3; 4]%Z ->
     forall t, t ∈ loader_cores -> t ∉ compute_cores).
Proof.
  exact (load_compute_cores_partition {[ 0%Z := [0; 1; 2; 3; 4]%Z ]} 0%Z).
Defined.

End NumaOnSamples.
